(** * Drawing_cellar: a shallow embedding of [main.py]

    The program builds a random scene (racks, shelves, items) and draws it
    with turtle graphics.  This file embeds the layout engine of [main.py]
    and proves properties of it.

    Conventions of the embedding.
    - Python [int] is [Z]; [//] on integers is [Z.div] (both round towards
      minus infinity for a positive divisor).
    - Python [float] is read in two ways.  In the embedding of the whole
      program it is [Q]: a float literal denotes its decimal value and float
      arithmetic is exact, without the rounding to binary64; a value that
      may be an [int] or a [float] at run time is a [Q].  Module [Binary64]
      embeds once more the float arithmetic of [Shelf.divide] and of the
      positions in [Shelf.__init__], over binary64 floats with the rounding
      of IEEE 754, to settle what rounding decides.
    - The [random] module is a state monad over the stream of words that the
      generator delivers; each library call consumes one word.  How the
      Mersenne Twister produces the words is not modelled.
    - Exceptions are results [Raise e].  The [depth] argument of
      [Shelf.divide] is the number of nested calls of [Shelf.divide] that
      one call from [Shelf.__init__] may make, and [RecursionError] stands
      for exceeding it.  The recursion limit of the interpreter, which also
      counts the frames of the callers, is not modelled. *)

From Stdlib Require Import ZArith QArith Qround List Bool Lia Lqa Floats.
Import ListNotations.
Open Scope Z_scope.
#[local] Set Warnings "-inexact-float".

(** ** Python numbers *)

(** [int(x)] for a float [x]: truncation towards zero. *)
Definition py_int (x : Q) : Z := Z.quot (Qnum x) (Zpos (Qden x)).

(** [a // b] for floats: the floor of the quotient, as a float. *)
Definition py_floordiv (a b : Q) : Q := inject_Z (Qfloor (a / b)).

(** [a > b] for floats. *)
Definition Qgtb (a b : Q) : bool := negb (Qle_bool a b).

(** ** Exceptions and the random-state monad *)

Inductive exn : Set :=
  ValueError | IndexError | ZeroDivisionError | RecursionError.

Inductive result (A : Type) : Type :=
| Ok (a : A)
| Raise (e : exn).
Arguments Ok {A} a.
Arguments Raise {A} e.

(** The words still to be delivered by the generator. *)
Definition source : Type := nat -> N.

Definition M (A : Type) : Type := source -> result (A * source).

Definition ret {A} (a : A) : M A := fun s => Ok (a, s).

Definition bind {A B} (m : M A) (k : A -> M B) : M B :=
  fun s => match m s with
           | Ok (a, s') => k a s'
           | Raise e => Raise e
           end.

Definition raise {A} (e : exn) : M A := fun _ => Raise e.

Notation "x <- m ;; k" := (bind m (fun x => k))
  (at level 61, m at next level, right associativity).

Notation "' pat <- m ;; k" :=
  (bind m (fun x => match x with pat => k end))
  (at level 61, pat pattern, m at next level, right associativity).

(** ** The [random] module *)

Module random.

(** The stream after its first word. *)
Definition rest (s : source) : source := fun n => s (S n).

(** The next word of the generator. *)
Definition getword : M N :=
  fun s => Ok (s 0%nat, rest s).

(** [random.random()]: a multiple of 2^-53 in [0, 1). *)
Definition random : M Q :=
  w <- getword ;;
  ret ((Z.of_N w mod 9007199254740992) # 9007199254740992).

(** [random._randbelow(n)] for [n > 0]: a value in [0, n). *)
Definition randbelow (n : Z) : M Z :=
  w <- getword ;;
  ret (Z.of_N w mod n).

(** [random.randint(a, b)]: a value in [a, b]; [ValueError] on an empty
    range. *)
Definition randint (a b : Z) : M Z :=
  if a <=? b
  then r <- randbelow (b - a + 1) ;; ret (a + r)
  else raise ValueError.

(** [random.uniform(a, b)] is [a + (b - a) * random()]. *)
Definition uniform (a b : Q) : M Q :=
  u <- random ;;
  ret (a + (b - a) * u)%Q.

(** [random.choice(seq)]: [IndexError] on an empty sequence. *)
Definition choice {A} (seq : list A) : M A :=
  match seq with
  | [] => raise IndexError
  | d :: _ =>
      i <- randbelow (Z.of_nat (length seq)) ;;
      ret (nth (Z.to_nat i) seq d)
  end.

(** [random.seed(a)]: the generator restarts from the stream of seed [a].
    [seeded] is the seeding function of the generator. *)
Definition seed (seeded : Z -> source) (a : Z) : M unit :=
  fun _ => Ok (tt, seeded a).

End random.

(** ** class Color *)

Definition RGB : Set := (Z * Z * Z)%type.

Module Color.

Definition cellar_background_color : RGB := (0xD3, 0xD3, 0xD3).
Definition white : RGB := (0xFF, 0xFF, 0xFF).
Definition black : RGB := (0, 0, 0).
Definition dark_gray : RGB := (0xA2, 0xA2, 0xA2).
Definition yellow : RGB := (0xFF, 0xE5, 0x7C).

Definition random_color : M RGB :=
  r <- random.randint 0 0xFF ;;
  g <- random.randint 0 0xFF ;;
  b <- random.randint 0 0xFF ;;
  ret (r, g, b).

Definition random_gray : M RGB :=
  value <- random.randint 0xCC 0xFF ;;
  ret (value, value, value).

Definition random_beer_color : M RGB :=
  coin <- random.randint 0 1 ;;
  if coin =? 0
  then r <- random.randint 0 0x10 ;;
       g <- random.randint 0x70 0x90 ;;
       b <- random.randint 0 0x10 ;;
       ret (r, g, b)
  else r <- random.randint 0x49 0x69 ;;
       g <- random.randint 0x2C 0x4C ;;
       b <- random.randint 0 0x2F ;;
       ret (r, g, b).

End Color.

(** ** class GlobalSetup *)

Module GlobalSetup.

Definition window_shape : Z * Z := (1600, 900).
Definition w : Z := fst window_shape.
Definition h : Z := snd window_shape.

(** The dictionary [padding], with its four fixed keys. *)
Record padding_t : Set :=
  { pad_left : Z; pad_right : Z; pad_top : Z; pad_bottom : Z }.

Definition padding : padding_t :=
  {| pad_left := py_int ((15 # 100) * inject_Z w);
     pad_right := py_int ((15 # 100) * inject_Z w);
     pad_top := py_int ((15 # 100) * inject_Z h);
     pad_bottom := py_int ((15 # 100) * inject_Z h) |}.

Definition rack_thickness : Z := 5.
Definition real_h : Z := h - pad_top padding - pad_bottom padding.
Definition real_w : Z := w - pad_left padding - pad_right padding.
Definition min_number_of_shelves : Z := Z.max (real_h / 90) 3.
Definition max_number_of_shelves : Z := Z.max (real_h / 40) 3.
Definition min_number_of_racks : Z := Z.max (real_w / 250) 2.
Definition max_number_of_racks : Z := Z.max (real_w / 100) 2.
Definition n_racks_threshold : Z :=
  (min_number_of_racks + max_number_of_racks) / 2.

(** The attributes that depend on the random draw of the class body. *)
Record t : Set :=
  { n_racks : Z; max_item_width : Q; min_item_width : Q }.

(** The part of the class body that draws [n_racks] and picks the item
    sizes.  It runs when the class statement is executed, that is when the
    module is loaded. *)
Definition class_body : M t :=
  n <- random.randint min_number_of_racks max_number_of_racks ;;
  if n <? n_racks_threshold
  then ret {| n_racks := n; max_item_width := 18 # 100; min_item_width := 8 # 100 |}
  else ret {| n_racks := n; max_item_width := 27 # 100; min_item_width := 12 # 100 |}.

End GlobalSetup.

(** ** class Coords *)

Module Coords.

Record t : Set := mk { coords : Q * Q; x : Q; y : Q }.

Definition half_w : Q := inject_Z (fst GlobalSetup.window_shape / 2).
Definition half_h : Q := inject_Z (snd GlobalSetup.window_shape / 2).

(** [Coords(x, y)] *)
Definition init (x y : Q) : t :=
  let c := (x - half_w, y - half_h)%Q in
  mk c (fst c) (snd c).

(** [self.undo_shift()]; the object is updated in place and returned. *)
Definition undo_shift (self : t) : t :=
  let c := (fst (coords self) + half_w, snd (coords self) + half_h)%Q in
  mk c (fst c) (snd c).

(** [self + other] *)
Definition add (self other : t) : t :=
  init (x self + x other) (y self + y other).

(** [self.add_unbiased(other)], [other] a pair of numbers. *)
Definition add_unbiased (self : t) (other : Q * Q) : t :=
  init (x self + fst other) (y self + snd other).

(** Two points are the same when their coordinates are equal numbers. *)
Definition same (p q : Q * Q) : Prop :=
  (fst p == fst q)%Q /\ (snd p == snd q)%Q.

End Coords.

(** ** class DrawingMethods *)

(** A call of a drawing method, with the position [starting_coords.coords]
    that the turtle is sent to.  The strokes of the turtle inside a method
    are not modelled. *)
Inductive DrawCall : Set :=
| rectangle (pos : Q * Q) (shape : Z * Z) (bg_color pen_color : RGB)
| triangle (pos : Q * Q) (length : Q) (bg_color pen_color : RGB)
| bottle (pos : Q * Q) (w h : Z) (bg_color pen_color : RGB).

Module DrawingMethods.

Definition draw_rectangle (starting_coords : Coords.t) (shape : Z * Z)
    (bg_color pen_color : RGB) : DrawCall :=
  rectangle (Coords.coords starting_coords) shape bg_color pen_color.

Definition draw_triangle (starting_coords : Coords.t) (length : Q)
    (bg_color pen_color : RGB) : DrawCall :=
  triangle (Coords.coords starting_coords) length bg_color pen_color.

Definition draw_bottle (starting_coords : Coords.t) (w h : Z)
    (bg_color pen_color : RGB) : DrawCall :=
  bottle (Coords.coords starting_coords) w h bg_color pen_color.


End DrawingMethods.

(** ** Items *)

Inductive ItemType : Set := JAR | JAR2 | SALT | BEER | BEER2.

(** [list(ItemType)] *)
Definition ItemType_list : list ItemType := [JAR; JAR2; SALT; BEER; BEER2].

Module AbstractItem.

(** [AbstractItem.__init__]: the fields [lb_coords], [w], [h] and a random
    [color]. *)
Definition init (lb_coords : Coords.t) (w h : Z) : M (Coords.t * Z * Z * RGB) :=
  color <- Color.random_color ;;
  ret (lb_coords, w, h, color).

End AbstractItem.

Module Jar.

Record t : Set := mk { lb_coords : Coords.t; w : Z; h : Z; color : RGB }.

Definition init (lb_coords : Coords.t) (w h : Z) : M t :=
  '(lb_coords, w, h, color) <- AbstractItem.init lb_coords w h ;;
  h <- random.randint (h / 2) h ;;
  ret (mk lb_coords w h color).

Definition draw (self : t) : M (list DrawCall) :=
  ret [ (* jar *)
        DrawingMethods.draw_rectangle (lb_coords self)
          (w self, py_int (inject_Z (h self * 6) / 7))
          Color.white Color.black;
        (* lid *)
        DrawingMethods.draw_rectangle
          (Coords.undo_shift
             (Coords.add_unbiased (lb_coords self)
                (inject_Z (w self / 10), inject_Z (6 * h self / 7))))
          (4 * w self / 5, Z.max 3 (h self / 7))
          Color.dark_gray Color.dark_gray;
        (* content *)
        DrawingMethods.draw_rectangle (lb_coords self)
          (w self, 54 * h self / 70) (color self) Color.black;
        (* label *)
        DrawingMethods.draw_rectangle
          (Coords.undo_shift
             (Coords.add_unbiased (lb_coords self)
                (inject_Z (w self / 4), inject_Z (3 * h self / 14))))
          (w self / 2, 3 * h self / 7)
          Color.yellow Color.black ].

End Jar.

Module Salt.

(** [w] is the integer budget, or the float [new_w] after shrinking. *)
Record t : Set := mk { lb_coords : Coords.t; w : Q; h : Z; color : RGB }.

(** The float [3**(1/2)], that is 0x1.bb67ae8584caap+0. *)
Definition sqrt3 : Q := 3900231685776981 # 2251799813685248.

Definition init (lb_coords : Coords.t) (w h : Z) : M t :=
  '(lb_coords, w, h, color) <- AbstractItem.init lb_coords w h ;;
  color <- Color.random_gray ;;
  if Qgtb (py_floordiv (sqrt3 * inject_Z w) 2) (inject_Z h)
  then
    let new_w := py_floordiv (inject_Z h) (sqrt3 / 2) in
    let delta_x := py_floordiv (inject_Z w - new_w) 2 in
    let lb_coords :=
      Coords.undo_shift (Coords.add_unbiased lb_coords (delta_x, 0%Q)) in
    ret (mk lb_coords new_w h color)
  else ret (mk lb_coords (inject_Z w) h color).

Definition draw (self : t) : M (list DrawCall) :=
  ret [ DrawingMethods.draw_triangle (lb_coords self) (w self)
          (color self) Color.black ].

End Salt.

Module Beer.

Record t : Set :=
  mk { lb_coords : Coords.t; w : Z; h : Z; color : RGB;
       beer_color : RGB; label_color : RGB; cap_color : RGB }.

Definition init (lb_coords : Coords.t) (w h : Z) : M t :=
  '(lb_coords, w, h, color) <- AbstractItem.init lb_coords w h ;;
  beer_color <- Color.random_beer_color ;;
  label_color <- Color.random_color ;;
  cap_color <- Color.random_color ;;
  if h >? 2 * w
  then
    h <- random.randint (2 * w) h ;;
    ret (mk lb_coords w h color beer_color label_color cap_color)
  else
    let new_w := h / 2 in
    let lb_coords :=
      Coords.undo_shift
        (Coords.add_unbiased lb_coords (inject_Z ((w - new_w) / 2), 0%Q)) in
    ret (mk lb_coords new_w h color beer_color label_color cap_color).

Definition draw (self : t) : M (list DrawCall) :=
  (* bottle *)
  let bottle_ :=
    DrawingMethods.draw_bottle (lb_coords self) (w self) (h self)
      (beer_color self) Color.black in
  (* label *)
  let label :=
    DrawingMethods.draw_rectangle
      (Coords.undo_shift
         (Coords.add_unbiased (lb_coords self) (0%Q, inject_Z (h self / 6))))
      (w self, h self / 4) (label_color self) Color.black in
  (* cap *)
  ran <- random.randint 0 10 ;;
  if ran =? 0
  then
    ret [ bottle_; label;
          DrawingMethods.draw_rectangle
            (Coords.undo_shift
               (Coords.add_unbiased (lb_coords self)
                  (inject_Z (w self / 3), inject_Z (11 * h self / 12))))
            (w self / 3, h self / 12) (cap_color self) (cap_color self) ]
  else
    ret [ bottle_; label;
          DrawingMethods.draw_rectangle
            (Coords.undo_shift
               (Coords.add_unbiased (lb_coords self)
                  (inject_Z (w self / 3), inject_Z (11 * h self / 12))))
            (w self / 3, h self / 12) (label_color self) (label_color self) ].

End Beer.

Inductive Item : Set :=
| AJar (j : Jar.t)
| ASalt (s : Salt.t)
| ABeer (b : Beer.t).

Definition Item_draw (item : Item) : M (list DrawCall) :=
  match item with
  | AJar j => Jar.draw j
  | ASalt s => Salt.draw s
  | ABeer b => Beer.draw b
  end.

(** [for x in xs: x.draw()], collecting the calls in order. *)
Fixpoint draw_each {A} (draw : A -> M (list DrawCall)) (xs : list A)
    : M (list DrawCall) :=
  match xs with
  | [] => ret []
  | x :: rest =>
      calls <- draw x ;;
      more <- draw_each draw rest ;;
      ret (calls ++ more)
  end.

(** [a // b] for integers when [b] is not a constant. *)
Definition floordiv (a b : Z) : M Z :=
  if b =? 0 then raise ZeroDivisionError else ret (a / b).

(** ** class Shelf *)

Module Shelf.

Record t : Set :=
  mk { width : Z; height : Z; lb_coords : Z * Z; color : RGB;
       items : list Item }.

(** [Shelf.divide(store, begin, end)] in exact arithmetic: [begin], [end]
    and the division point are the rationals that the floats of the source
    approximate ([Binary64.divide] is the same function over binary64).
    The list [store] is updated in place; the function returns it.  [depth]
    is the number of nested calls of [divide] still allowed. *)
Fixpoint divide (gs : GlobalSetup.t) (depth : nat) (store : list (Q * Q))
    (begin end_ : Q) : M (list (Q * Q)) :=
  match depth with
  | O => raise RecursionError
  | S depth =>
      if Qgtb (end_ - begin) (GlobalSetup.max_item_width gs)
      then
        div_point <- random.uniform
                       (begin + GlobalSetup.min_item_width gs)
                       (end_ - GlobalSetup.min_item_width gs) ;;
        store <- divide gs depth store begin div_point ;;
        divide gs depth store div_point end_
      else ret (store ++ [(begin, end_)])
  end.

(** [choice_dict[random_item_type](lb_coords, w, h)] *)
Definition choice_dict (ty : ItemType) (lb_coords : Coords.t) (w h : Z)
    : M Item :=
  match ty with
  | JAR | JAR2 => j <- Jar.init lb_coords w h ;; ret (AJar j)
  | SALT => s <- Salt.init lb_coords w h ;; ret (ASalt s)
  | BEER | BEER2 => b <- Beer.init lb_coords w h ;; ret (ABeer b)
  end.

(** The loop [for length in item_widths] of [__init__].  The first
    component of [item_lb_coords] becomes a float after the first item; it
    is accumulated here in exact arithmetic ([Binary64.slots] accumulates
    it in binary64). *)
Fixpoint fill (width height : Z) (item_widths : list Q)
    (item_lb_coords : Q * Z) (items : list Item) : M (list Item) :=
  match item_widths with
  | [] => ret items
  | length :: item_widths =>
      random_item_type <- random.choice ItemType_list ;;
      item <- choice_dict random_item_type
                (Coords.init (fst item_lb_coords)
                   (inject_Z (snd item_lb_coords)))
                (py_int (length * inject_Z width))
                (height - GlobalSetup.rack_thickness) ;;
      fill width height item_widths
        ((fst item_lb_coords + length * inject_Z width)%Q,
         snd item_lb_coords)
        (items ++ [item])
  end.

(** The generator [(c[1] - c[0] for c in end_item_coords)]. *)
Definition item_widths (end_item_coords : list (Q * Q)) : list Q :=
  map (fun c => (snd c - fst c)%Q) end_item_coords.

Definition init (gs : GlobalSetup.t) (depth : nat) (w h : Z)
    (coords : Z * Z) (color : RGB) : M t :=
  end_item_coords <- divide gs depth [] 0%Q 1%Q ;;
  let item_lb_coords :=
    (inject_Z (fst coords), snd coords + GlobalSetup.rack_thickness) in
  items <- fill w h (item_widths end_item_coords) item_lb_coords [] ;;
  ret (mk w h coords color items).

Definition draw (self : t) : M (list DrawCall) :=
  let board :=
    DrawingMethods.draw_rectangle
      (Coords.init (inject_Z (fst (lb_coords self)))
         (inject_Z (snd (lb_coords self))))
      (width self, GlobalSetup.rack_thickness) (color self) (color self) in
  calls <- draw_each Item_draw (items self) ;;
  ret (board :: calls).

End Shelf.

(** ** class Rack *)

Module Rack.

Record t : Set :=
  mk { width : Z; height : Z; lb_coords : Z * Z; n_shelves : Z;
       color : RGB; shelves : list Shelf.t }.

(** The loop [for _ in range(self.n_shelves - 1)] of [__init__]. *)
Fixpoint stack (gs : GlobalSetup.t) (depth : nat) (count : nat)
    (shelf_w shelf_h : Z) (s_coords : Z * Z) (color : RGB)
    (shelves : list Shelf.t) : M (list Shelf.t * (Z * Z)) :=
  match count with
  | O => ret (shelves, s_coords)
  | S count =>
      shelf <- Shelf.init gs depth shelf_w shelf_h s_coords color ;;
      stack gs depth count shelf_w shelf_h
        (fst s_coords, snd s_coords + shelf_h) color (shelves ++ [shelf])
  end.

Definition init (gs : GlobalSetup.t) (depth : nat) (w h : Z)
    (coords : Z * Z) : M t :=
  n_shelves <- random.randint GlobalSetup.min_number_of_shelves
                 GlobalSetup.max_number_of_shelves ;;
  color <- Color.random_color ;;
  let shelf_w := w - 2 * GlobalSetup.rack_thickness in
  shelf_h <- floordiv h n_shelves ;;
  let s_coords :=
    (fst coords + GlobalSetup.rack_thickness,
     snd coords + shelf_h / 2 - GlobalSetup.rack_thickness / 2) in
  '(shelves, s_coords) <-
    (if n_shelves >? 1
     then stack gs depth (Z.to_nat (n_shelves - 1)) shelf_w shelf_h
            s_coords color []
     else ret ([], s_coords)) ;;
  last <- Shelf.init gs depth shelf_w (shelf_h / 2) s_coords color ;;
  ret (mk w h coords n_shelves color (shelves ++ [last])).

Definition draw_rack_alone (self : t) : list DrawCall :=
  [ DrawingMethods.draw_rectangle
      (Coords.init (inject_Z (fst (lb_coords self)))
         (inject_Z (snd (lb_coords self))))
      (GlobalSetup.rack_thickness, height self) (color self) (color self);
    DrawingMethods.draw_rectangle
      (Coords.init
         (inject_Z (fst (lb_coords self) + width self
                    - GlobalSetup.rack_thickness))
         (inject_Z (snd (lb_coords self))))
      (GlobalSetup.rack_thickness, height self) (color self) (color self) ].

Definition draw (self : t) : M (list DrawCall) :=
  calls <- draw_each Shelf.draw (shelves self) ;;
  ret (draw_rack_alone self ++ calls ++ draw_rack_alone self).

End Rack.

(** ** class Screen *)

Module Screen.

Record t : Set :=
  mk { height : Z; width : Z; n_racks : Z; pad : GlobalSetup.padding_t;
       joint_rack_w : Z; rack_h : Z; racks : list Rack.t }.

(** The loop [for _ in range(self.n_racks)] of [__init__]. *)
Fixpoint line_up (gs : GlobalSetup.t) (depth : nat) (count : nat)
    (rack_w rack_h : Z) (coords : Z * Z) (racks : list Rack.t)
    : M (list Rack.t) :=
  match count with
  | O => ret racks
  | S count =>
      rack <- Rack.init gs depth rack_w rack_h coords ;;
      line_up gs depth count rack_w rack_h
        (fst coords + rack_w, snd coords) (racks ++ [rack])
  end.

(** [Screen(pad)].  [resolution] is the screen size found by
    [GlobalSetup()], or [None] when no method could find it. *)
Definition init (gs : GlobalSetup.t) (depth : nat)
    (resolution : option (Z * Z)) (pad : option GlobalSetup.padding_t)
    : M t :=
  let '(w, h) := GlobalSetup.window_shape in
  _ <- match resolution with
       | Some (screen_width, screen_height) =>
           if (h >? screen_height) || (w >? screen_width)
           then raise ValueError else ret tt
       | None => ret tt
       end ;;
  let n_racks := GlobalSetup.n_racks gs in
  let pad :=
    match pad with
    | None =>
        {| GlobalSetup.pad_left := py_int ((15 # 100) * inject_Z w);
           GlobalSetup.pad_right := py_int ((15 # 100) * inject_Z w);
           GlobalSetup.pad_top := py_int ((15 # 100) * inject_Z h);
           GlobalSetup.pad_bottom := py_int ((15 # 100) * inject_Z h) |}
    | Some pad => pad
    end in
  let joint_rack_w :=
    w - GlobalSetup.pad_left pad - GlobalSetup.pad_right pad in
  rack_w <- floordiv joint_rack_w n_racks ;;
  let rack_h := h - GlobalSetup.pad_top pad - GlobalSetup.pad_bottom pad in
  if (rack_w <? 1) || (rack_h <? 1)
  then raise ValueError
  else
    racks <- line_up gs depth (Z.to_nat n_racks) rack_w rack_h
               (GlobalSetup.pad_left pad, GlobalSetup.pad_bottom pad) [] ;;
    ret (mk h w n_racks pad joint_rack_w rack_h racks).

Definition draw (self : t) : M (list DrawCall) :=
  let background :=
    DrawingMethods.draw_rectangle
      (Coords.init (inject_Z (GlobalSetup.pad_left (pad self)))
         (inject_Z (GlobalSetup.pad_bottom (pad self))))
      (joint_rack_w self, rack_h self)
      Color.cellar_background_color Color.cellar_background_color in
  calls <- draw_each Rack.draw (racks self) ;;
  ret (background :: calls).

End Screen.

(** ** The program *)

Section Program.

(** The seeding function of the generator. *)
Variable seeded : Z -> source.
(** The number of nested calls that a call of [Shelf.divide] from
    [Shelf.__init__] may make. *)
Variable depth : nat.
(** The screen size found by [GlobalSetup()], if any. *)
Variable resolution : option (Z * Z).

(** [main()]; [Screen()] uses the default [pad=GlobalSetup.padding], and
    [window.setup()] configures the turtle window without drawing. *)
Definition main (gs : GlobalSetup.t) : M (list DrawCall) :=
  _ <- random.seed seeded 677 ;;
  window <- Screen.init gs depth resolution (Some GlobalSetup.padding) ;;
  Screen.draw window.

(** Loading the module executes the class statements, among them the body
    of [GlobalSetup], and then calls [main()]. *)
Definition program : M (list DrawCall) :=
  gs <- GlobalSetup.class_body ;;
  main gs.

(** A run of the program from the state [entropy] in which the generator
    is when the interpreter starts. *)
Definition run (entropy : source) : result (list DrawCall) :=
  match program entropy with
  | Ok (calls, _) => Ok calls
  | Raise e => Raise e
  end.

End Program.

(** ** Shelf.divide and the positions of Shelf.__init__ in binary64 *)

Module Binary64.

(** [float(z)] for an [int] [z] whose absolute value is below 2^63. *)
Definition of_int (z : Z) : float :=
  match z with
  | Z0 => 0%float
  | Zpos _ => PrimFloat.of_uint63 (Uint63.of_Z z)
  | Zneg p => (- PrimFloat.of_uint63 (Uint63.of_Z (Zpos p)))%float
  end.

(** The rational number that a finite float is. *)
Definition to_Q (x : float) : Q :=
  match Prim2SF x with
  | S754_finite sign m e =>
      ((if sign then -1 else 1) * inject_Z (Zpos m) * Qpower 2 e)%Q
  | _ => 0%Q
  end.

(** [int(x)] for a finite float [x]: its value truncated towards zero. *)
Definition int (x : float) : Z := py_int (to_Q x).

(** [random.random()]: a multiple of 2^-53 in [0, 1), as a float. *)
Definition random : M float :=
  w <- random.getword ;;
  ret (PrimFloat.of_uint63 (Uint63.of_Z (Z.of_N w mod 9007199254740992))
       / 9007199254740992)%float.

(** [random.uniform(a, b)] is [a + (b - a) * random()]. *)
Definition uniform (a b : float) : M float :=
  u <- random ;;
  ret (a + (b - a) * u)%float.

(** The attributes [max_item_width] and [min_item_width] of
    [GlobalSetup]. *)
Record t : Set := { max_item_width : float; min_item_width : float }.


(** [Shelf.divide(store, begin, end)]; [depth] is the number of nested
    calls of [divide] still allowed. *)
Fixpoint divide (gs : t) (depth : nat) (store : list (float * float))
    (begin end_ : float) : M (list (float * float)) :=
  match depth with
  | O => raise RecursionError
  | S depth =>
      if (max_item_width gs <? end_ - begin)%float
      then
        div_point <- uniform (begin + min_item_width gs)
                       (end_ - min_item_width gs) ;;
        store <- divide gs depth store begin div_point ;;
        divide gs depth store div_point end_
      else ret (store ++ [(begin, end_)])
  end.

(** The generator [(c[1] - c[0] for c in end_item_coords)]. *)
Definition item_widths (end_item_coords : list (float * float))
    : list float :=
  map (fun c => (snd c - fst c)%float) end_item_coords.

(** The first component of [item_lb_coords] and the width in pixels
    [int(length * self.width)] with which the loop of [Shelf.__init__]
    constructs each item, starting at [x]. *)
Fixpoint slots (width : Z) (item_widths : list float) (x : float)
    : list (float * Z) :=
  match item_widths with
  | [] => []
  | length :: item_widths =>
      (x, int (length * of_int width))
      :: slots width item_widths (x + length * of_int width)%float
  end.


(** The intervals of [ivs] follow each other from [b] to [e], each one
    ending at the float at which the next one begins. *)
Fixpoint chained (b : float) (ivs : list (float * float)) (e : float)
    : Prop :=
  match ivs with
  | [] => b = e
  | c :: rest => fst c = b /\ chained (snd c) rest e
  end.

(** The length of an interval as the program computes it. *)
Definition interval_length (c : float * float) : float :=
  (snd c - fst c)%float.


End Binary64.

(** * Vocabulary of the properties *)

(** The fields [x], [y] and [coords] of a point agree. *)
Definition Coords_consistent (c : Coords.t) : Prop :=
  Coords.x c = fst (Coords.coords c) /\ Coords.y c = snd (Coords.coords c).

(** The intervals of [ivs] follow each other from [b] to [e]: the first one
    begins at [b], each one ends where the next one begins, and the last one
    ends at [e]. *)
Fixpoint chained (b : Q) (ivs : list (Q * Q)) (e : Q) : Prop :=
  match ivs with
  | [] => b = e
  | c :: rest => fst c = b /\ chained (snd c) rest e
  end.

Definition interval_length (c : Q * Q) : Q := snd c - fst c.

Definition Qsum (l : list Q) : Q := fold_right Qplus 0%Q l.

Definition Zsum (l : list Z) : Z := fold_right Z.add 0 l.

(** The assumption of [Shelf.divide] on the item widths, with a positive
    minimum. *)
Definition valid_item_widths (gs : GlobalSetup.t) : Prop :=
  (0 < GlobalSetup.min_item_width gs)%Q
  /\ (2 * GlobalSetup.min_item_width gs <= GlobalSetup.max_item_width gs)%Q.

(** A number of nested calls that [Shelf.divide] never exceeds on the
    interval from [begin] to [end_]: one more than the number of minimal
    widths that cover the interval. *)
Definition divide_depth (gs : GlobalSetup.t) (begin end_ : Q) : nat :=
  S (Z.to_nat (Qceiling ((end_ - begin) / GlobalSetup.min_item_width gs))).

(** A slot: the position [item_lb_coords] and the width in pixels with which
    the loop of [Shelf.__init__] constructs an item. *)
Definition slot : Type := ((Q * Z) * Z)%type.

Definition slot_x (sl : slot) : Q := fst (fst sl).
Definition slot_w (sl : slot) : Z := snd sl.

(** The slots that the loop of [Shelf.__init__] goes through for the lengths
    [item_widths], starting at [item_lb_coords]. *)
Fixpoint slots (width : Z) (item_widths : list Q) (item_lb_coords : Q * Z)
    : list slot :=
  match item_widths with
  | [] => []
  | length :: item_widths =>
      (item_lb_coords, py_int (length * inject_Z width))
      :: slots width item_widths
           ((fst item_lb_coords + length * inject_Z width)%Q,
            snd item_lb_coords)
  end.

(** The point that [Coords] makes of the pair [item_lb_coords] of a slot. *)
Definition slot_coords (sl : slot) : Coords.t :=
  Coords.init (slot_x sl) (inject_Z (snd (fst sl))).

(** [item] is an item that some constructor of [choice_dict] builds in the
    slot [sl] of a shelf of height [height]. *)
Definition built_in (height : Z) (sl : slot) (item : Item) : Prop :=
  exists ty s s',
    Shelf.choice_dict ty (slot_coords sl) (slot_w sl)
      (height - GlobalSetup.rack_thickness) s
    = Ok (item, s').

(** The field [lb_coords] of an item. *)
Definition Item_lb_coords (item : Item) : Coords.t :=
  match item with
  | AJar j => Jar.lb_coords j
  | ASalt s => Salt.lb_coords s
  | ABeer b => Beer.lb_coords b
  end.

(** The field [w] of an item. *)
Definition Item_w (item : Item) : Q :=
  match item with
  | AJar j => inject_Z (Jar.w j)
  | ASalt s => Salt.w s
  | ABeer b => inject_Z (Beer.w b)
  end.

(** The field [h] of an item. *)
Definition Item_h (item : Item) : Z :=
  match item with
  | AJar j => Jar.h j
  | ASalt s => Salt.h s
  | ABeer b => Beer.h b
  end.

(** The height of the equilateral triangle of side [length] that
    [draw_triangle] draws, with the float [3**(1/2)] for the square root
    of 3. *)
Definition triangle_height (length : Q) : Q := (length * Salt.sqrt3 / 2)%Q.

(** The values that [random.randint(a, b)] returns, each for as many words
    of the generator as the others when the number of words is a multiple of
    [b - a + 1]. *)
Definition randint_values (a b : Z) : list Z :=
  map (fun i => a + Z.of_nat i) (seq 0 (Z.to_nat (b - a + 1))).

(** The share of the values of [random.randint(a, b)] that satisfy
    [event]. *)
Definition randint_share (a b : Z) (event : Z -> bool) : Q :=
  Z.of_nat (length (filter event (randint_values a b)))
  # Pos.of_nat (length (randint_values a b)).

(** The screen, when its size is known, is not smaller than the window. *)
Definition window_fits (resolution : option (Z * Z)) : Prop :=
  match resolution with
  | Some (screen_width, screen_height) =>
      GlobalSetup.h <= screen_height /\ GlobalSetup.w <= screen_width
  | None => True
  end.

(** [lb.add_unbiased(offset).undo_shift()], the way the program moves a
    point by an offset. *)
Definition Coords_moved (lb : Coords.t) (offset : Q * Q) : Coords.t :=
  Coords.undo_shift (Coords.add_unbiased lb offset).

(** The point [p] lies in the box of width [w] and height [h] whose
    left-bottom corner is [origin]. *)
Definition point_in_box (origin : Q * Q) (w h : Q) (p : Q * Q) : Prop :=
  (fst origin <= fst p /\ fst p <= fst origin + w
   /\ snd origin <= snd p /\ snd p <= snd origin + h)%Q.

(** The shape drawn by [call] lies in the box of width [w] and height [h]
    whose left-bottom corner is [origin]: a rectangle or a bottle by its own
    box, a triangle by its base and its height. *)
Definition call_in_box (origin : Q * Q) (w h : Q) (call : DrawCall) : Prop :=
  match call with
  | rectangle pos shape _ _ =>
      point_in_box origin w h pos
      /\ point_in_box origin w h
           (fst pos + inject_Z (fst shape), snd pos + inject_Z (snd shape))%Q
  | bottle pos bw bh _ _ =>
      point_in_box origin w h pos
      /\ point_in_box origin w h
           (fst pos + inject_Z bw, snd pos + inject_Z bh)%Q
  | triangle pos length _ _ =>
      point_in_box origin w h pos
      /\ point_in_box origin w h
           (fst pos + length, snd pos + triangle_height length)%Q
  end.

(** The position at which [call] starts to draw. *)
Definition call_pos (call : DrawCall) : Q * Q :=
  match call with
  | rectangle pos _ _ _ | triangle pos _ _ _ | bottle pos _ _ _ _ => pos
  end.

(** The height up to which [call] draws. *)
Definition call_top (call : DrawCall) : Q :=
  match call with
  | rectangle pos shape _ _ => snd pos + inject_Z (snd shape)
  | triangle pos length _ _ => snd pos + triangle_height length
  | bottle pos _ h _ _ => snd pos + inject_Z h
  end%Q.

(** The number of beers among [items]. *)
Definition count_beers (items : list Item) : nat :=
  length (filter (fun item => match item with ABeer _ => true | _ => false end)
            items).

(** The number of calls that the items draw: four for a jar, one for a salt
    and three for a beer. *)
Definition count_calls (items : list Item) : nat :=
  fold_right
    (fun item n =>
       match item with AJar _ => 4 | ASalt _ => 1 | ABeer _ => 3 end + n)%nat
    0%nat items.

(** ** Sample inputs *)

(** A configuration of the regime of many racks. *)
Definition many_racks : GlobalSetup.t :=
  {| GlobalSetup.n_racks := 8;
     GlobalSetup.max_item_width := 27 # 100;
     GlobalSetup.min_item_width := 12 # 100 |}.


(** A generator whose first five words make [random.random()] return 1/2,
    1/4, 1/2, 1/4 and 1/2, and whose other words are 0. *)
Definition sample_words : source :=
  fun n =>
    nth n [4503599627370496; 2251799813685248; 4503599627370496;
           2251799813685248; 4503599627370496]%N 0%N.

(** A generator all of whose words make [random.random()] return 1/2. *)
Definition half_words : source := fun _ => 4503599627370496%N.

(** A generator all of whose words are 3. *)
Definition three_words : source := fun _ => 3%N.

(** A generator all of whose words are 0: [random.random()] returns 0. *)
Definition zero_words : source := fun _ => 0%N.


(** A configuration whose maximal width is below the minimal one. *)
Definition reversed_widths : GlobalSetup.t :=
  {| GlobalSetup.n_racks := 4;
     GlobalSetup.max_item_width := 1 # 10;
     GlobalSetup.min_item_width := 2 # 10 |}.

(** A configuration whose maximal width is below twice the minimal one. *)
Definition narrow_widths : GlobalSetup.t :=
  {| GlobalSetup.n_racks := 4;
     GlobalSetup.max_item_width := 15 # 100;
     GlobalSetup.min_item_width := 10 # 100 |}.

(** * Properties *)

(** ** Coords *)

Lemma Coords_same_refl (p : Q * Q) : Coords.same p p.
Proof. split; reflexivity. Qed.



Lemma Coords_init_consistent (x y : Q) : Coords_consistent (Coords.init x y).
Proof. split; reflexivity. Qed.

Lemma Coords_undo_shift_consistent (c : Coords.t) :
  Coords_consistent (Coords.undo_shift c).
Proof. split; reflexivity. Qed.








(** ** The monad and the generator *)

Lemma bind_Ok {A B} (m : M A) (k : A -> M B) s b s' :
  bind m k s = Ok (b, s') ->
  exists a s1, m s = Ok (a, s1) /\ k a s1 = Ok (b, s').
Proof.
  unfold bind. destruct (m s) as [[a s1]|e]; [eauto | discriminate].
Qed.

Lemma bind_step {A B} (m : M A) (k : A -> M B) s a s1 :
  m s = Ok (a, s1) -> bind m k s = k a s1.
Proof. unfold bind. intros ->. reflexivity. Qed.

Lemma ret_Ok {A} (a b : A) s s' : ret a s = Ok (b, s') -> b = a /\ s' = s.
Proof. unfold ret. intros [= <- <-]. auto. Qed.

Lemma randint_total a b s :
  a <= b ->
  exists r, random.randint a b s = Ok (r, random.rest s) /\ a <= r <= b.
Proof.
  intros Hab. unfold random.randint.
  destruct (Z.leb_spec a b) as [_|]; [|lia].
  exists (a + Z.of_N (s 0%nat) mod (b - a + 1)). split; [reflexivity|].
  pose proof (Z.mod_pos_bound (Z.of_N (s 0%nat)) (b - a + 1)). lia.
Qed.

Lemma randint_Ok a b s r s' :
  random.randint a b s = Ok (r, s') ->
  a <= r <= b /\ s' = random.rest s.
Proof.
  unfold random.randint. destruct (Z.leb_spec a b) as [Hab|]; [|discriminate].
  destruct (randint_total a b s Hab) as (r0 & Hr0 & Hb).
  unfold random.randint in Hr0. destruct (Z.leb_spec a b); [|lia].
  rewrite Hr0. intros [= <- <-]. auto.
Qed.

Lemma random_unit s :
  exists u, random.random s = Ok (u, random.rest s) /\ (0 <= u /\ u < 1)%Q.
Proof.
  eexists. split; [reflexivity|].
  pose proof (Z.mod_pos_bound (Z.of_N (s 0%nat)) 9007199254740992).
  unfold Qle, Qlt. cbn [Qnum Qden]. lia.
Qed.

Lemma uniform_Ok a b s :
  exists u, random.uniform a b s = Ok ((a + (b - a) * u)%Q, random.rest s)
            /\ (0 <= u /\ u < 1)%Q.
Proof.
  destruct (random_unit s) as (u & Hu & Hb). exists u. split; [|exact Hb].
  unfold random.uniform. rewrite (bind_step _ _ _ _ _ Hu). reflexivity.
Qed.

Lemma Qgtb_true a b : Qgtb a b = true -> (b < a)%Q.
Proof.
  unfold Qgtb. intros H. apply negb_true_iff in H.
  apply Qnot_le_lt. intros Hle. apply Qle_bool_iff in Hle. congruence.
Qed.

Lemma Qgtb_false a b : Qgtb a b = false -> (a <= b)%Q.
Proof.
  unfold Qgtb. intros H. apply negb_false_iff in H.
  apply Qle_bool_iff. exact H.
Qed.

(** A fraction of a non-negative span lies within the span. *)
Lemma Qunit_scale k u :
  (0 <= k)%Q -> (0 <= u)%Q -> (u < 1)%Q -> (0 <= k * u /\ k * u <= k)%Q.
Proof.
  intros Hk Hu Hu1. split; nra.
Qed.

(** ** Shelf.divide *)

Lemma chained_app b ivs1 d ivs2 e :
  chained b ivs1 d -> chained d ivs2 e -> chained b (ivs1 ++ ivs2) e.
Proof.
  revert b. induction ivs1 as [|c ivs1 IH]; intros b H1 H2; cbn in *.
  - subst d. exact H2.
  - destruct H1 as [Hc H1]. split; [exact Hc | apply IH; assumption].
Qed.

Lemma chained_sum b ivs e :
  chained b ivs e -> (Qsum (map interval_length ivs) == e - b)%Q.
Proof.
  revert b. induction ivs as [|c ivs IH]; intros b H; cbn in *.
  - subst e. ring.
  - destruct H as [Hc H]. rewrite (IH _ H). unfold interval_length.
    rewrite Hc. ring.
Qed.

(** The division point leaves the minimal width on each side. *)
Lemma div_point_margins (m b e u : Q) :
  (2 * m <= e - b)%Q -> (0 <= u)%Q -> (u < 1)%Q ->
  let div_point := ((b + m) + ((e - m) - (b + m)) * u)%Q in
  (m <= div_point - b /\ m <= e - div_point)%Q.
Proof.
  intros Hspan Hu Hu1 div_point. subst div_point.
  destruct (Qunit_scale ((e - m) - (b + m)) u) as [H0 H1]; [lra | lra | lra |].
  split; lra.
Qed.

Section Divide.

Variable gs : GlobalSetup.t.
Let min_w := GlobalSetup.min_item_width gs.
Let max_w := GlobalSetup.max_item_width gs.

Hypothesis Hwidths : (2 * min_w <= max_w)%Q.

(** What a call appends when it returns. *)
Lemma divide_appends depth :
  forall store b e s store' s',
    (min_w <= e - b \/ max_w < e - b)%Q ->
    Shelf.divide gs depth store b e s = Ok (store', s') ->
    exists ivs,
      store' = store ++ ivs /\ ivs <> [] /\ chained b ivs e
      /\ Forall (fun c => min_w <= interval_length c
                          /\ interval_length c <= max_w)%Q ivs.
Proof.
  induction depth as [|depth IH]; intros store b e s store' s' Hspan Hrun.
  - discriminate.
  - cbn [Shelf.divide] in Hrun.
    destruct (Qgtb (e - b) (GlobalSetup.max_item_width gs)) eqn:Hcmp.
    + apply Qgtb_true in Hcmp.
      apply bind_Ok in Hrun as (d & s1 & Hd & Hrun).
      apply bind_Ok in Hrun as (store1 & s2 & Hleft & Hright).
      destruct (uniform_Ok (b + GlobalSetup.min_item_width gs)
                  (e - GlobalSetup.min_item_width gs) s)
        as (u & Hu & Hu0 & Hu1).
      rewrite Hu in Hd. injection Hd as <- <-.
      destruct (div_point_margins min_w b e u) as [Hl Hr];
        [subst min_w max_w; lra | assumption | assumption |].
      fold min_w in Hleft, Hright.
      apply IH in Hleft as (ivs1 & -> & Hne1 & Hch1 & Hall1);
        [|left; exact Hl].
      apply IH in Hright as (ivs2 & -> & Hne2 & Hch2 & Hall2);
        [|left; exact Hr].
      exists (ivs1 ++ ivs2). repeat split.
      * symmetry. apply app_assoc.
      * destruct ivs1; [congruence | discriminate].
      * eapply chained_app; eassumption.
      * apply Forall_app. split; assumption.
    + apply Qgtb_false in Hcmp. apply ret_Ok in Hrun as [-> _].
      exists [(b, e)]. repeat split.
      * discriminate.
      * constructor; [|constructor]. unfold interval_length. cbn [fst snd].
        fold max_w in Hcmp. split; [|exact Hcmp].
        destruct Hspan as [H|H]; [exact H | lra].
Qed.

Hypothesis Hmin : (0 < min_w)%Q.

(** A call on an interval covered by [n] minimal widths returns when more
    than [n] nested calls are allowed. *)
Lemma divide_returns_within n :
  forall depth store b e s,
    (e - b <= inject_Z (Z.of_nat n) * min_w)%Q ->
    (n < depth)%nat ->
    exists store' s', Shelf.divide gs depth store b e s = Ok (store', s').
Proof.
  induction n as [|n IH]; intros depth store b e s Hcover Hdepth;
    (destruct depth as [|depth]; [lia|]); cbn [Shelf.divide];
    destruct (Qgtb (e - b) (GlobalSetup.max_item_width gs)) eqn:Hcmp;
    try (eexists; eexists; reflexivity);
    apply Qgtb_true in Hcmp; fold max_w in Hcmp.
  - change (inject_Z (Z.of_nat 0)) with 0%Q in Hcover. lra.
  - destruct (uniform_Ok (b + GlobalSetup.min_item_width gs)
                (e - GlobalSetup.min_item_width gs) s)
      as (u & Hu & Hu0 & Hu1).
    rewrite (bind_step _ _ _ _ _ Hu).
    destruct (div_point_margins min_w b e u) as [Hl Hr];
      [lra | assumption | assumption |].
    fold min_w. fold min_w in Hl, Hr.
    assert (Hn : (inject_Z (Z.of_nat (S n))
                  == inject_Z (Z.of_nat n) + 1)%Q).
    { rewrite Nat2Z.inj_succ. unfold Z.succ. rewrite inject_Z_plus.
      reflexivity. }
    rewrite Hn in Hcover.
    destruct (IH depth store b
                ((b + min_w) + ((e - min_w) - (b + min_w)) * u)%Q
                (random.rest s))
      as (store1 & s1 & Hleft); [lra | lia |].
    rewrite (bind_step _ _ _ _ _ Hleft).
    apply IH; [lra | lia].
Qed.

Lemma divide_depth_covers b e :
  (e - b <= inject_Z (Z.of_nat (Z.to_nat (Qceiling ((e - b) / min_w))))
            * min_w)%Q.
Proof.
  set (q := ((e - b) / min_w)%Q).
  assert (Hq : (e - b == q * min_w)%Q).
  { subst q. field. lra. }
  destruct (Z.le_gt_cases 0 (Qceiling q)) as [Hpos|Hneg].
  - rewrite Z2Nat.id by exact Hpos.
    pose proof (Qle_ceiling q) as Hc. rewrite Hq. nra.
  - replace (Z.to_nat (Qceiling q)) with 0%nat by lia.
    change (inject_Z (Z.of_nat 0)) with 0%Q.
    pose proof (Qle_ceiling q) as Hc.
    assert (inject_Z (Qceiling q) < 0)%Q.
    { unfold Qlt. cbn. lia. }
    rewrite Hq. nra.
Qed.

Lemma divide_returns depth store b e s :
  (divide_depth gs b e <= depth)%nat ->
  exists store' s', Shelf.divide gs depth store b e s = Ok (store', s').
Proof.
  intros Hdepth. unfold divide_depth in Hdepth.
  eapply divide_returns_within; [apply divide_depth_covers|].
  unfold min_w. lia.
Qed.

End Divide.

(** ** GlobalSetup *)

Lemma GlobalSetup_constants :
  GlobalSetup.padding
  = {| GlobalSetup.pad_left := 240; GlobalSetup.pad_right := 240;
       GlobalSetup.pad_top := 135; GlobalSetup.pad_bottom := 135 |}
  /\ GlobalSetup.real_w = 1120 /\ GlobalSetup.real_h = 630
  /\ GlobalSetup.min_number_of_shelves = 7
  /\ GlobalSetup.max_number_of_shelves = 15
  /\ GlobalSetup.min_number_of_racks = 4
  /\ GlobalSetup.max_number_of_racks = 11
  /\ GlobalSetup.n_racks_threshold = 7.
Proof. repeat split; reflexivity. Qed.

(** The class body always succeeds, and picks one of the two regimes. *)
Lemma class_body_Ok s :
  exists gs,
    GlobalSetup.class_body s = Ok (gs, random.rest s)
    /\ GlobalSetup.n_racks gs = 4 + Z.of_N (s 0%nat) mod 8
    /\ ((GlobalSetup.n_racks gs < 7
         /\ GlobalSetup.max_item_width gs = 18 # 100
         /\ GlobalSetup.min_item_width gs = 8 # 100)
        \/ (7 <= GlobalSetup.n_racks gs
            /\ GlobalSetup.max_item_width gs = 27 # 100
            /\ GlobalSetup.min_item_width gs = 12 # 100)).
Proof.
  unfold GlobalSetup.class_body.
  change GlobalSetup.min_number_of_racks with 4.
  change GlobalSetup.max_number_of_racks with 11.
  change GlobalSetup.n_racks_threshold with 7.
  assert (Hn : random.randint 4 11 s
               = Ok (4 + Z.of_N (s 0%nat) mod 8, random.rest s))
    by reflexivity.
  rewrite (bind_step _ _ _ _ _ Hn).
  destruct (Z.ltb_spec (4 + Z.of_N (s 0%nat) mod 8) 7) as [Hlt|Hge];
    eexists; (split; [reflexivity|]); cbn; auto.
Qed.

Lemma class_body_valid s gs s' :
  GlobalSetup.class_body s = Ok (gs, s') -> valid_item_widths gs.
Proof.
  destruct (class_body_Ok s) as (gs0 & Hrun & _ & Hregime).
  rewrite Hrun. intros [= <- <-]. unfold valid_item_widths.
  destruct Hregime as [(_ & -> & ->)|(_ & -> & ->)]; split;
    unfold Qlt, Qle; cbn; lia.
Qed.

(** ** Shelf.divide in exact arithmetic *)

(** Without rounding, a call of [Shelf.divide(store, begin, end)] with
    [max_item_width >= 2 * min_item_width] and
    [end - begin > max_item_width] appends to [store] a non-empty sequence of
    intervals that tiles the span from [begin] to [end]: the first interval
    begins at [begin], each one ends where the next one begins, the last one
    ends at [end], the lengths sum to [end - begin], and every length lies
    between [min_item_width] and [max_item_width].  With a positive
    [min_item_width] the call does return, as soon as [divide_depth] nested
    calls are allowed. *)
Lemma divide_tiles_exact (gs : GlobalSetup.t) (store : list (Q * Q))
    (begin end_ : Q) :
  (2 * GlobalSetup.min_item_width gs <= GlobalSetup.max_item_width gs)%Q ->
  (GlobalSetup.max_item_width gs < end_ - begin)%Q ->
  (forall depth s store' s',
      Shelf.divide gs depth store begin end_ s = Ok (store', s') ->
      exists ivs,
        store' = store ++ ivs /\ ivs <> [] /\ chained begin ivs end_
        /\ (Qsum (map interval_length ivs) == end_ - begin)%Q
        /\ Forall (fun c =>
                     GlobalSetup.min_item_width gs <= interval_length c
                     /\ interval_length c <= GlobalSetup.max_item_width gs)%Q
             ivs)
  /\ ((0 < GlobalSetup.min_item_width gs)%Q ->
      forall depth s, (divide_depth gs begin end_ <= depth)%nat ->
      exists store' s',
        Shelf.divide gs depth store begin end_ s = Ok (store', s')).
Proof.
  intros Hwidths Hspan. split.
  - intros depth s store' s' Hrun.
    destruct (divide_appends gs Hwidths depth store begin end_ s store' s')
      as (ivs & Hstore & Hne & Hch & Hall); [right; exact Hspan | exact Hrun |].
    exists ivs. repeat split; try assumption.
    apply chained_sum. exact Hch.
  - intros Hmin depth s Hdepth.
    apply divide_returns; assumption.
Qed.

(** ** Shelf.__init__ *)

Lemma py_int_floor (x : Q) : (0 <= x)%Q -> py_int x = Qfloor x.
Proof.
  destruct x as [n d]. unfold Qle, py_int, Qfloor. cbn [Qnum Qden].
  intros Hn. apply Z.quot_div_nonneg; lia.
Qed.

Lemma py_int_bounds (x : Q) :
  (0 <= x)%Q -> (inject_Z (py_int x) <= x /\ x < inject_Z (py_int x) + 1)%Q.
Proof.
  intros Hx. rewrite (py_int_floor x Hx). split.
  - apply Qfloor_le.
  - pose proof (Qlt_floor x) as H. rewrite inject_Z_plus in H. exact H.
Qed.

(** The loop of [Shelf.__init__] builds one item in each slot, in order. *)
Lemma fill_slots width height item_widths :
  forall item_lb_coords items s items' s',
    Shelf.fill width height item_widths item_lb_coords items s
    = Ok (items', s') ->
    exists new,
      items' = items ++ new
      /\ Forall2 (built_in height) (slots width item_widths item_lb_coords)
           new.
Proof.
  induction item_widths as [|length item_widths IH];
    intros item_lb_coords items s items' s' Hrun; cbn [Shelf.fill] in Hrun.
  - apply ret_Ok in Hrun as [-> _]. exists []. split.
    + symmetry. apply app_nil_r.
    + constructor.
  - apply bind_Ok in Hrun as (ty & s1 & Hty & Hrun).
    apply bind_Ok in Hrun as (item & s2 & Hitem & Hrun).
    apply IH in Hrun as (new & -> & Hnew).
    exists (item :: new). split.
    + rewrite <- app_assoc. reflexivity.
    + cbn [slots]. constructor; [|exact Hnew].
      exists ty, s1, s2. exact Hitem.
Qed.

Lemma Shelf_init_Ok gs depth w h coords color s shelf s' :
  Shelf.init gs depth w h coords color s = Ok (shelf, s') ->
  exists end_item_coords s1,
    Shelf.divide gs depth [] 0%Q 1%Q s = Ok (end_item_coords, s1)
    /\ Shelf.width shelf = w /\ Shelf.height shelf = h
    /\ Shelf.lb_coords shelf = coords /\ Shelf.color shelf = color
    /\ Forall2 (built_in h)
         (slots w (Shelf.item_widths end_item_coords)
            (inject_Z (fst coords), snd coords + GlobalSetup.rack_thickness))
         (Shelf.items shelf).
Proof.
  unfold Shelf.init. intros Hrun.
  apply bind_Ok in Hrun as (ivs & s1 & Hdiv & Hrun).
  apply bind_Ok in Hrun as (items & s2 & Hfill & Hrun).
  apply ret_Ok in Hrun as [-> _].
  apply fill_slots in Hfill as (new & -> & Hnew).
  exists ivs, s1. cbn. auto 10.
Qed.


Lemma slots_widths width lengths :
  forall lb,
    map slot_w (slots width lengths lb)
    = map (fun length => py_int (length * inject_Z width)) lengths.
Proof.
  induction lengths as [|l lengths IH]; intros lb; cbn [slots map].
  - reflexivity.
  - rewrite IH. reflexivity.
Qed.

Section Slots.

Variable width : Z.
Variable x0 : Q.
Variable y0 : Z.
Hypothesis Hwidth : 0 <= width.

Let W : Q := inject_Z width.

Lemma W_nonneg : (0 <= W)%Q.
Proof. unfold W, Qle. cbn. lia. Qed.



(** The widths in pixels miss the scaled sum of the lengths by less than
    one pixel for each item. *)
Lemma slots_sum lengths :
  forall x,
    Forall (fun l => 0 <= l)%Q lengths ->
    let ws := map slot_w (slots width lengths (x, y0)) in
    length ws = length lengths
    /\ (inject_Z (Zsum ws) <= Qsum lengths * W)%Q
    /\ (Qsum lengths * W - inject_Z (Z.of_nat (length lengths))
        < inject_Z (Zsum ws) \/ lengths = [])%Q.
Proof.
  pose proof W_nonneg as HW.
  induction lengths as [|l lengths IH]; intros x Hpos.
  - cbn. change (inject_Z 0) with 0%Q.
    split; [reflexivity|]. split; [lra | right; reflexivity].
  - inversion Hpos as [|? ? Hl Hpos']; subst.
    destruct (IH (x + l * W)%Q Hpos') as (Hlen & Hle & Hlt).
    cbn [slots map length fst snd]. fold W.
    set (ws := map slot_w (slots width lengths ((x + l * W)%Q, y0))) in *.
    change (slot_w ((x, y0), py_int (l * W))) with (py_int (l * W)).
    cbn zeta in Hlen, Hle, Hlt |- *.
    change (Zsum (py_int (l * W) :: ws)) with (py_int (l * W) + Zsum ws).
    change (Qsum (l :: lengths)) with (l + Qsum lengths)%Q.
    assert (Hprod : (0 <= l * W)%Q) by nra.
    destruct (py_int_bounds _ Hprod) as [Hfit Hnear].
    rewrite inject_Z_plus, Nat2Z.inj_succ. unfold Z.succ.
    rewrite inject_Z_plus. change (inject_Z 1) with 1%Q.
    assert (Hdist : ((l + Qsum lengths) * W == l * W + Qsum lengths * W)%Q)
      by ring.
    rewrite Hdist.
    split; [f_equal; exact Hlen|]. split; [lra|]. left.
    destruct Hlt as [Hlt | ->]; [lra|].
    cbn in Hle |- *. change (inject_Z 0) with 0%Q in *. lra.
Qed.

End Slots.

(** ** Items *)

Lemma random_color_Ok s :
  exists c, Color.random_color s
            = Ok (c, random.rest (random.rest (random.rest s))).
Proof. eexists. reflexivity. Qed.

Lemma random_gray_Ok s :
  exists c, Color.random_gray s = Ok (c, random.rest s).
Proof. eexists. reflexivity. Qed.

Lemma random_beer_color_Ok s :
  exists c s', Color.random_beer_color s = Ok (c, s').
Proof.
  unfold Color.random_beer_color.
  destruct (randint_total 0 1 s) as (coin & Hcoin & _); [lia|].
  rewrite (bind_step _ _ _ _ _ Hcoin).
  destruct (coin =? 0); eexists; eexists; reflexivity.
Qed.

Lemma AbstractItem_init_Ok lb w h s :
  exists color,
    AbstractItem.init lb w h s
    = Ok ((lb, w, h, color), random.rest (random.rest (random.rest s))).
Proof. eexists. reflexivity. Qed.

(** A jar keeps its position and width; its height is drawn between half
    the budget and the budget. *)
Lemma Jar_init_Ok lb w h s j s' :
  Jar.init lb w h s = Ok (j, s') ->
  Jar.lb_coords j = lb /\ Jar.w j = w /\ h / 2 <= Jar.h j <= h.
Proof.
  unfold Jar.init. intros Hrun.
  destruct (AbstractItem_init_Ok lb w h s) as (color & Hsuper).
  rewrite (bind_step _ _ _ _ _ Hsuper) in Hrun.
  apply bind_Ok in Hrun as (h' & s1 & Hh & Hrun).
  apply ret_Ok in Hrun as [-> _].
  apply randint_Ok in Hh as [Hh _]. cbn. auto.
Qed.

Lemma Jar_init_total lb w h s :
  0 <= h -> exists j s', Jar.init lb w h s = Ok (j, s').
Proof.
  intros Hh. unfold Jar.init.
  destruct (AbstractItem_init_Ok lb w h s) as (color & Hsuper).
  rewrite (bind_step _ _ _ _ _ Hsuper).
  destruct (randint_total (h / 2) h
              (random.rest (random.rest (random.rest s))))
    as (h' & Hh' & _).
  { apply Z.div_le_upper_bound; lia. }
  rewrite (bind_step _ _ _ _ _ Hh'). eexists. eexists. reflexivity.
Qed.

(** The constructor of [Salt] always returns: either the width is kept, or
    it is replaced by the largest whole width whose triangle fits the
    height, and the salt is moved right by half the difference. *)
Lemma Salt_init_Ok lb w h s :
  exists salt s',
    Salt.init lb w h s = Ok (salt, s')
    /\ Salt.h salt = h
    /\ ((Qgtb (py_floordiv (Salt.sqrt3 * inject_Z w) 2) (inject_Z h) = false
         /\ Salt.w salt = inject_Z w /\ Salt.lb_coords salt = lb)
        \/ (Qgtb (py_floordiv (Salt.sqrt3 * inject_Z w) 2) (inject_Z h) = true
            /\ Salt.w salt = py_floordiv (inject_Z h) (Salt.sqrt3 / 2)
            /\ Salt.lb_coords salt
               = Coords.undo_shift
                   (Coords.add_unbiased lb
                      (py_floordiv (inject_Z w - Salt.w salt) 2, 0%Q)))).
Proof.
  unfold Salt.init.
  destruct (AbstractItem_init_Ok lb w h s) as (color & Hsuper).
  rewrite (bind_step _ _ _ _ _ Hsuper).
  destruct (random_gray_Ok (random.rest (random.rest (random.rest s))))
    as (gray & Hgray).
  rewrite (bind_step _ _ _ _ _ Hgray).
  destruct (Qgtb (py_floordiv (Salt.sqrt3 * inject_Z w) 2) (inject_Z h));
    eexists; eexists; (split; [reflexivity|]); cbn; auto.
Qed.

(** The constructor of [Beer] always returns: a bottle with room above
    keeps its width and draws a height of at least twice the width; another
    one has its width set to half the height and is moved right by half the
    difference. *)
Lemma Beer_init_Ok lb w h s :
  exists beer s',
    Beer.init lb w h s = Ok (beer, s')
    /\ ((2 * w < h /\ Beer.w beer = w /\ 2 * w <= Beer.h beer <= h
         /\ Beer.lb_coords beer = lb)
        \/ (h <= 2 * w /\ Beer.w beer = h / 2 /\ Beer.h beer = h
            /\ Beer.lb_coords beer
               = Coords.undo_shift
                   (Coords.add_unbiased lb
                      (inject_Z ((w - h / 2) / 2), 0%Q)))).
Proof.
  unfold Beer.init.
  destruct (AbstractItem_init_Ok lb w h s) as (color & Hsuper).
  rewrite (bind_step _ _ _ _ _ Hsuper).
  destruct (random_beer_color_Ok (random.rest (random.rest (random.rest s))))
    as (beer_color & s1 & Hbeer).
  rewrite (bind_step _ _ _ _ _ Hbeer).
  destruct (random_color_Ok s1) as (label_color & Hlabel).
  rewrite (bind_step _ _ _ _ _ Hlabel).
  destruct (random_color_Ok (random.rest (random.rest (random.rest s1))))
    as (cap_color & Hcap).
  rewrite (bind_step _ _ _ _ _ Hcap).
  destruct (Z.gtb_spec h (2 * w)) as [Htall|Hshort].
  - match goal with |- context [bind (random.randint (2 * w) h) _ ?s2] =>
      destruct (randint_total (2 * w) h s2) as (h' & Hh' & Hrange); [lia|]
    end.
    rewrite (bind_step _ _ _ _ _ Hh').
    eexists. eexists. split; [reflexivity|]. left. cbn. auto.
  - eexists. eexists. split; [reflexivity|]. right. cbn. auto.
Qed.

Lemma Coords_x_moved lb dx dy :
  (Coords.x (Coords.undo_shift (Coords.add_unbiased lb (dx, dy)))
   == Coords.x lb + dx)%Q.
Proof.
  unfold Coords.undo_shift, Coords.add_unbiased, Coords.init.
  cbn [fst snd Coords.coords Coords.x]. ring.
Qed.

Lemma sqrt3_half_pos : (0 < Salt.sqrt3 / 2)%Q.
Proof. reflexivity. Qed.

Lemma inject_Z_floor_nonneg (x : Q) : (0 <= x)%Q -> (0 <= inject_Z (Qfloor x))%Q.
Proof.
  intros Hx. change 0%Q with (inject_Z 0). rewrite <- Zle_Qle.
  rewrite <- (Qfloor_Z 0). apply Qfloor_resp_le. exact Hx.
Qed.

(** A salt that is shrunk gets narrower, its triangle fits the height, and
    it stays inside its slot. *)
Lemma Salt_shrunk_width w h :
  Qgtb (py_floordiv (Salt.sqrt3 * inject_Z w) 2) (inject_Z h) = true ->
  let new_w := py_floordiv (inject_Z h) (Salt.sqrt3 / 2) in
  (new_w < inject_Z w /\ triangle_height new_w <= inject_Z h
   /\ 0 <= py_floordiv (inject_Z w - new_w) 2
   /\ py_floordiv (inject_Z w - new_w) 2 + new_w <= inject_Z w)%Q.
Proof.
  intros Hcmp new_w. apply Qgtb_true in Hcmp.
  pose proof sqrt3_half_pos as Hk.
  unfold triangle_height. subst new_w. unfold py_floordiv in *.
  set (k := (Salt.sqrt3 / 2)%Q) in *.
  assert (Hkw : (Salt.sqrt3 * inject_Z w / 2 == k * inject_Z w)%Q)
    by (subst k; unfold Qdiv; ring).
  rewrite Hkw in Hcmp.
  pose proof (Qfloor_le (k * inject_Z w)) as Hfl.
  pose proof (Qfloor_le (inject_Z h / k)) as Hnew.
  set (nw := inject_Z (Qfloor (inject_Z h / k))) in *.
  assert (Hnk : (nw * k <= inject_Z h)%Q).
  { assert (Hq : (inject_Z h / k * k == inject_Z h)%Q) by (field; lra).
    set (hk := (inject_Z h / k)%Q) in *. nra. }
  assert (Hlt : (nw < inject_Z w)%Q) by nra.
  assert (Hth : (nw * Salt.sqrt3 / 2 == nw * k)%Q)
    by (subst k; unfold Qdiv; ring).
  rewrite Hth.
  pose proof (Qfloor_le ((inject_Z w - nw) / 2)) as Hd.
  assert (Hhalf : ((inject_Z w - nw) / 2 == (inject_Z w - nw) * (1 # 2))%Q)
    by reflexivity.
  assert (Hd0 : (0 <= inject_Z (Qfloor ((inject_Z w - nw) / 2)))%Q)
    by (apply inject_Z_floor_nonneg; rewrite Hhalf; lra).
  rewrite Hhalf in Hd at 2.
  repeat split; try assumption. lra.
Qed.

(** A salt that keeps its width has a triangle less than one pixel higher
    than the height. *)
Lemma Salt_kept_width w h :
  Qgtb (py_floordiv (Salt.sqrt3 * inject_Z w) 2) (inject_Z h) = false ->
  (triangle_height (inject_Z w) < inject_Z h + 1)%Q.
Proof.
  intros Hcmp. apply Qgtb_false in Hcmp. unfold py_floordiv in Hcmp.
  rewrite <- Zle_Qle in Hcmp. unfold triangle_height.
  assert (Heq : (inject_Z w * Salt.sqrt3 / 2
                 == Salt.sqrt3 * inject_Z w / 2)%Q)
    by (unfold Qdiv; ring).
  rewrite Heq. set (t := (Salt.sqrt3 * inject_Z w / 2)%Q) in *.
  pose proof (Qlt_floor t) as Hlt. rewrite inject_Z_plus in Hlt.
  rewrite Zle_Qle in Hcmp. change (inject_Z 1) with 1%Q in Hlt. lra.
Qed.

(** Every item that a constructor builds stays inside its slot, and its
    fields [w] and [h] do not exceed the budget. *)
Lemma choice_dict_fits ty lb w h s item s' :
  Shelf.choice_dict ty lb w h s = Ok (item, s') ->
  (Coords.x lb <= Coords.x (Item_lb_coords item)
   /\ Coords.x (Item_lb_coords item) + Item_w item <= Coords.x lb + inject_Z w
   /\ Item_w item <= inject_Z w)%Q
  /\ Item_h item <= h.
Proof.
  intros Hrun.
  assert (Hcase :
    (exists j s1, Jar.init lb w h s = Ok (j, s1) /\ item = AJar j)
    \/ (exists sa s1, Salt.init lb w h s = Ok (sa, s1) /\ item = ASalt sa)
    \/ (exists b s1, Beer.init lb w h s = Ok (b, s1) /\ item = ABeer b)).
  { destruct ty; cbn [Shelf.choice_dict] in Hrun;
      apply bind_Ok in Hrun as (v & s1 & Hv & Hret);
      apply ret_Ok in Hret as [-> _]; eauto 8. }
  destruct Hcase as [(j & s1 & Hj & ->)|[(sa & s1 & Hsa & ->)|(b & s1 & Hb & ->)]].
  - apply Jar_init_Ok in Hj as (Hlb & Hw & Hh). cbn.
    rewrite Hlb, Hw. repeat split; try lra. lia.
  - destruct (Salt_init_Ok lb w h s) as (sa' & s1' & Hrun' & Hh & Hshape).
    rewrite Hrun' in Hsa. injection Hsa as <- <-. cbn.
    destruct Hshape as [(_ & Hw & Hlb)|(Hcmp & Hw & Hlb)].
    + rewrite Hw, Hlb. repeat split; try lra. lia.
    + destruct (Salt_shrunk_width w h Hcmp) as (Hlt & _ & Hd0 & Hd1).
      cbn zeta in Hlt, Hd0, Hd1. rewrite <- Hw in Hlt, Hd0, Hd1.
      rewrite Hlb, Coords_x_moved. repeat split; try lra. lia.
  - destruct (Beer_init_Ok lb w h s) as (b' & s1' & Hrun' & Hshape).
    rewrite Hrun' in Hb. injection Hb as <- <-. cbn.
    destruct Hshape as [(_ & Hw & Hh & Hlb)|(Hshort & Hw & Hh & Hlb)].
    + rewrite Hw, Hlb. repeat split; try lra. lia.
    + rewrite Hw, Hlb, Coords_x_moved.
      assert (Hhalf : h / 2 <= w) by (apply Z.div_le_upper_bound; lia).
      pose proof (Z.div_pos (w - h / 2) 2) as Hd0.
      pose proof (Z.mul_div_le (w - h / 2) 2) as Hd1.
      set (d := (w - h / 2) / 2) in *. set (nw := h / 2) in *.
      assert (Hd : 0 <= d) by lia. assert (Hdw : d + nw <= w) by lia.
      split; [|lia].
      rewrite Zle_Qle in Hd, Hdw, Hhalf. rewrite inject_Z_plus in Hdw.
      change (inject_Z 0) with 0%Q in Hd.
      repeat split; lra.
Qed.

(** C6, at a salt of budget 47 by 40: the constructor keeps the width 47,
    although the triangle of side 47 is higher than 40. *)
Theorem salt_47_40_not_shrunk (lb : Coords.t) (s : source) :
  exists salt s',
    Salt.init lb 47 40 s = Ok (salt, s')
    /\ Salt.w salt = inject_Z 47 /\ Salt.lb_coords salt = lb
    /\ (inject_Z 40 < triangle_height (Salt.w salt))%Q.
Proof.
  destruct (Salt_init_Ok lb 47 40 s) as (salt & s' & Hrun & _ & Hshape).
  exists salt, s'. split; [exact Hrun|].
  destruct Hshape as [(_ & Hw & Hlb)|(Hcmp & _)].
  - rewrite Hw. split; [reflexivity|]. split; [exact Hlb | reflexivity].
  - discriminate Hcmp.
Qed.

(** [Beer.draw] always returns three calls; the third one is the cap, in
    the color selected by the value drawn from [random.randint(0, 10)]. *)
Lemma Beer_draw_Ok beer s :
  exists ran bottle_ label pos shape,
    ran = Z.of_N (s 0%nat) mod 11
    /\ Beer.draw beer s
       = Ok ([bottle_; label;
              rectangle pos shape
                (if ran =? 0 then Beer.cap_color beer
                 else Beer.label_color beer)
                (if ran =? 0 then Beer.cap_color beer
                 else Beer.label_color beer)],
             random.rest s).
Proof.
  unfold Beer.draw.
  assert (Hran : random.randint 0 10 s
                 = Ok (Z.of_N (s 0%nat) mod 11, random.rest s))
    by reflexivity.
  rewrite (bind_step _ _ _ _ _ Hran).
  exists (Z.of_N (s 0%nat) mod 11).
  destruct (Z.of_N (s 0%nat) mod 11 =? 0);
    do 4 eexists; (split; [reflexivity|]); reflexivity.
Qed.

(** C9, on the code: [Beer.draw] draws the cap with the color selected by
    [ran = random.randint(0, 10)], the bottle's own cap color when [ran] is
    0 and the label color otherwise.  [ran] takes 11 values, so the cap has
    its own color for 1 value in 11 and the label color for 10 in 11, not
    for 1 in 10 and 9 in 10. *)
Theorem beer_cap_color_share :
  (forall beer s,
      exists ran bottle_ label pos shape,
        ran = Z.of_N (s 0%nat) mod 11
        /\ Beer.draw beer s
           = Ok ([bottle_; label;
                  rectangle pos shape
                    (if ran =? 0 then Beer.cap_color beer
                     else Beer.label_color beer)
                    (if ran =? 0 then Beer.cap_color beer
                     else Beer.label_color beer)],
                 random.rest s))
  /\ randint_values 0 10 = [0; 1; 2; 3; 4; 5; 6; 7; 8; 9; 10]
  /\ (randint_share 0 10 (fun ran => ran =? 0) == 1 # 11)%Q
  /\ (randint_share 0 10 (fun ran => negb (ran =? 0)) == 10 # 11)%Q
  /\ ~ (randint_share 0 10 (fun ran => ran =? 0) == 1 # 10)%Q.
Proof.
  split; [exact Beer_draw_Ok|].
  split; [reflexivity|]. split; [reflexivity|]. split; [reflexivity|].
  discriminate.
Qed.

(** ** The slots of Shelf.__init__ in exact arithmetic *)


Lemma Qsum_bounds (lo hi : Q) (l : list Q) :
  Forall (fun x => lo <= x /\ x <= hi)%Q l ->
  (inject_Z (Z.of_nat (length l)) * lo <= Qsum l
   /\ Qsum l <= inject_Z (Z.of_nat (length l)) * hi)%Q.
Proof.
  induction 1 as [|x l [Hlo Hhi] _ [IHlo IHhi]].
  - cbn. change (inject_Z 0) with 0%Q. split; lra.
  - cbn [length Qsum fold_right]. fold (Qsum l).
    rewrite Nat2Z.inj_succ. unfold Z.succ. rewrite inject_Z_plus.
    change (inject_Z 1) with 1%Q. split; lra.
Qed.

(** C8, as stated, fails: with the sample generator the shelf of width 300
    is divided at 37/200, 137/400, 1/2, 137/200 and 337/400; its six items
    are jars of widths 55, 47, 47, 55, 47 and 47 pixels, 298 in all. *)
Lemma shelf_300_pixel_widths_sum_to_298 :
  exists shelf s' end_item_coords s1,
    Shelf.init many_racks 10 300 40 (240, 135) Color.black sample_words
    = Ok (shelf, s')
    /\ Shelf.divide many_racks 10 [] 0%Q 1%Q sample_words
       = Ok (end_item_coords, s1)
    /\ map (fun length => py_int (length * inject_Z 300))
         (Shelf.item_widths end_item_coords)
       = [55; 47; 47; 55; 47; 47]
    /\ map Item_w (Shelf.items shelf)
       = map inject_Z [55; 47; 47; 55; 47; 47]
    /\ Zsum [55; 47; 47; 55; 47; 47] <> 300.
Proof.
  destruct (Shelf.init many_racks 10 300 40 (240, 135) Color.black
              sample_words) as [[shelf s']|e] eqn:Hrun;
    [|vm_compute in Hrun; discriminate].
  destruct (Shelf.divide many_racks 10 [] 0%Q 1%Q sample_words)
    as [[ivs s1]|e] eqn:Hdiv;
    [|vm_compute in Hdiv; discriminate].
  exists shelf, s', ivs, s1.
  split; [reflexivity|]. split; [reflexivity|]. split; [|split].
  - vm_compute in Hdiv. injection Hdiv as <- _. vm_compute. reflexivity.
  - vm_compute in Hrun. injection Hrun as <- _. vm_compute. reflexivity.
  - vm_compute. discriminate.
Qed.

(** C8, amended: for a shelf of width 300 with [min_item_width = 0.12] and
    [max_item_width = 0.27], the widths in pixels given to its items, each
    [int(length * 300)] for a length of the partition of [0, 1], are between
    4 and 8 in number and sum to at most 300 and to more than 300 minus their
    number: every width is rounded down and nothing is added back. *)
Theorem shelf_300_pixel_widths (gs : GlobalSetup.t) (depth : nat) (h : Z)
    (coords : Z * Z) (color : RGB) (s : source) (shelf : Shelf.t)
    (s' : source) :
  GlobalSetup.max_item_width gs = 27 # 100 ->
  GlobalSetup.min_item_width gs = 12 # 100 ->
  Shelf.init gs depth 300 h coords color s = Ok (shelf, s') ->
  exists end_item_coords sls,
    (exists s1, Shelf.divide gs depth [] 0%Q 1%Q s = Ok (end_item_coords, s1))
    /\ sls = slots 300 (Shelf.item_widths end_item_coords)
               (inject_Z (fst coords),
                snd coords + GlobalSetup.rack_thickness)
    /\ Forall2 (built_in h) sls (Shelf.items shelf)
    /\ map slot_w sls
       = map (fun length => py_int (length * inject_Z 300))
           (Shelf.item_widths end_item_coords)
    /\ (4 <= length sls <= 8)%nat
    /\ 300 - Z.of_nat (length sls) < Zsum (map slot_w sls) <= 300.
Proof.
  intros Hmax Hmin Hrun.
  apply Shelf_init_Ok in Hrun
    as (ivs & s1 & Hdiv & _ & _ & _ & _ & Hbuilt).
  assert (Hwidths : (2 * GlobalSetup.min_item_width gs
                     <= GlobalSetup.max_item_width gs)%Q)
    by (rewrite Hmax, Hmin; unfold Qle; simpl; lia).
  destruct (divide_appends gs Hwidths depth [] 0%Q 1%Q s ivs s1)
    as (ivs' & Heq & Hne & Hch & Hall);
    [right; rewrite Hmax; reflexivity | exact Hdiv |].
  cbn in Heq. subst ivs'. rewrite Hmax, Hmin in Hall.
  set (lb := (inject_Z (fst coords),
              snd coords + GlobalSetup.rack_thickness)) in *.
  exists ivs, (slots 300 (Shelf.item_widths ivs) lb).
  split; [eauto|]. split; [reflexivity|]. split; [exact Hbuilt|].
  assert (Hlens : Forall (fun x => (12 # 100) <= x /\ x <= (27 # 100))%Q
                    (Shelf.item_widths ivs)).
  { unfold Shelf.item_widths. apply Forall_map. exact Hall. }
  assert (Hpos : Forall (fun l => 0 <= l)%Q (Shelf.item_widths ivs)).
  { eapply Forall_impl; [|exact Hlens]. cbn. intros x [H _]. lra. }
  pose proof (chained_sum _ _ _ Hch) as Hsum.
  change (map interval_length ivs) with (Shelf.item_widths ivs) in Hsum.
  destruct (Qsum_bounds _ _ _ Hlens) as [Hlo Hhi].
  destruct (slots_sum 300 (snd lb) ltac:(lia) (Shelf.item_widths ivs)
              (fst lb) Hpos) as (Hlen & Hle & Hlt).
  cbn zeta in Hlen, Hle, Hlt. rewrite length_map in Hlen.
  change (fst lb, snd lb) with lb in Hlen, Hle, Hlt.
  rewrite Hsum in Hlo, Hhi, Hle, Hlt.
  set (n := length (Shelf.item_widths ivs)) in *.
  assert (Hn : (4 <= n <= 8)%nat).
  { unfold Qle in Hlo, Hhi. cbn in Hlo, Hhi. lia. }
  split.
  - apply slots_widths.
  - rewrite Hlen. split; [exact Hn|].
    destruct Hlt as [Hlt|Hnil]; [|subst n; rewrite Hnil in Hn; cbn in Hn; lia].
    split.
    + apply Z.lt_nge. intros Hge. rewrite Zle_Qle in Hge.
      unfold Z.sub in Hge. rewrite inject_Z_plus, inject_Z_opp in Hge.
      change (inject_Z 300) with 300%Q in *. lra.
    + rewrite Zle_Qle. change (inject_Z 300) with 300%Q in *. lra.
Qed.

(** C8, amended, on the shelf built from the sample generator. *)
Lemma shelf_300_pixel_widths_witness :
  GlobalSetup.max_item_width many_racks = 27 # 100
  /\ GlobalSetup.min_item_width many_racks = 12 # 100
  /\ exists shelf s',
       Shelf.init many_racks 10 300 40 (240, 135) Color.black sample_words
       = Ok (shelf, s')
       /\ exists end_item_coords sls,
            sls = slots 300 (Shelf.item_widths end_item_coords)
                    (inject_Z 240, 135 + GlobalSetup.rack_thickness)
            /\ Forall2 (built_in 40) sls (Shelf.items shelf)
            /\ (4 <= length sls <= 8)%nat
            /\ 300 - Z.of_nat (length sls) < Zsum (map slot_w sls) <= 300.
Proof.
  split; [reflexivity | split; [reflexivity |]].
  destruct (Shelf.init many_racks 10 300 40 (240, 135) Color.black
              sample_words) as [[shelf s']|e] eqn:Hrun.
  - exists shelf, s'. split; [reflexivity|].
    destruct (shelf_300_pixel_widths many_racks 10 40 (240, 135) Color.black
                sample_words shelf s' eq_refl eq_refl Hrun)
      as (ivs & sls & _ & Hsls & Hbuilt & _ & Hn & Hsum).
    exists ivs, sls. auto.
  - vm_compute in Hrun. discriminate.
Defined.

(** ** Rack.__init__ *)

Lemma floordiv_Ok a b s q s' :
  floordiv a b s = Ok (q, s') -> b <> 0 /\ q = a / b /\ s' = s.
Proof.
  unfold floordiv. destruct (Z.eqb_spec b 0) as [|Hb]; [discriminate|].
  intros Hrun. apply ret_Ok in Hrun as [-> ->]. auto.
Qed.

(** The loop of [Rack.__init__] appends [count] shelves of the given width
    and height, each one [shelf_h] above the one before. *)
Lemma stack_Ok gs depth count :
  forall shelf_w shelf_h s_coords color shelves s shelves' s_coords' s',
    Rack.stack gs depth count shelf_w shelf_h s_coords color shelves s
    = Ok ((shelves', s_coords'), s') ->
    exists new,
      shelves' = shelves ++ new /\ length new = count
      /\ Forall (fun shelf => Shelf.width shelf = shelf_w
                              /\ Shelf.height shelf = shelf_h) new
      /\ s_coords' = (fst s_coords, snd s_coords + Z.of_nat count * shelf_h).
Proof.
  induction count as [|count IH];
    intros shelf_w shelf_h s_coords color shelves s shelves' s_coords' s' Hrun;
    cbn [Rack.stack] in Hrun.
  - apply ret_Ok in Hrun as [[= -> ->] _]. exists []. repeat split.
    + symmetry. apply app_nil_r.
    + constructor.
    + destruct s_coords as [x y]. cbn. f_equal. lia.
  - apply bind_Ok in Hrun as (shelf & s1 & Hshelf & Hrun).
    apply IH in Hrun as (new & -> & Hlen & Hall & ->).
    apply Shelf_init_Ok in Hshelf as (_ & _ & _ & Hw & Hh & _).
    exists (shelf :: new). repeat split.
    + rewrite <- app_assoc. reflexivity.
    + cbn. f_equal. exact Hlen.
    + constructor; [split; assumption | exact Hall].
    + cbn [fst snd]. f_equal. lia.
Qed.

Lemma Rack_init_Ok gs depth w h coords s rack s' :
  Rack.init gs depth w h coords s = Ok (rack, s') ->
  Rack.width rack = w /\ Rack.height rack = h /\ Rack.lb_coords rack = coords
  /\ GlobalSetup.min_number_of_shelves <= Rack.n_shelves rack
     <= GlobalSetup.max_number_of_shelves
  /\ exists firsts last,
       Rack.shelves rack = firsts ++ [last]
       /\ length firsts = Z.to_nat (Rack.n_shelves rack - 1)
       /\ Forall (fun shelf =>
                    Shelf.width shelf = w - 2 * GlobalSetup.rack_thickness
                    /\ Shelf.height shelf = h / Rack.n_shelves rack) firsts
       /\ Shelf.width last = w - 2 * GlobalSetup.rack_thickness
       /\ Shelf.height last = h / Rack.n_shelves rack / 2.
Proof.
  unfold Rack.init. intros Hrun.
  apply bind_Ok in Hrun as (k & s1 & Hk & Hrun).
  apply randint_Ok in Hk as [Hk _].
  apply bind_Ok in Hrun as (color & s2 & _ & Hrun).
  apply bind_Ok in Hrun as (shelf_h & s3 & Hdiv & Hrun).
  apply floordiv_Ok in Hdiv as (_ & -> & _).
  apply bind_Ok in Hrun as ([shelves s_coords] & s4 & Hstack & Hrun).
  apply bind_Ok in Hrun as (last & s5 & Hlast & Hrun).
  apply ret_Ok in Hrun as [-> _]. cbn.
  apply Shelf_init_Ok in Hlast as (_ & _ & _ & Hlw & Hlh & _).
  do 3 (split; [reflexivity|]). split; [exact Hk|].
  exists shelves, last. split; [reflexivity|].
  change GlobalSetup.min_number_of_shelves with 7 in Hk.
  destruct (Z.gtb_spec k 1) as [_|Hle]; [|lia].
  apply stack_Ok in Hstack as (new & Heq & Hlen & Hall & _).
  cbn in Heq. subst new. auto.
Qed.

(** C7: a rack constructed with height [h >= 0] and shelf count [k] has
    exactly [k] shelves; the first [k - 1] have height [h // k], the last
    one has height [(h // k) // 2], and the heights add up to
    [(k - 1) * (h // k) + (h // k) // 2], which is at most [h]. *)
Theorem rack_shelf_heights (gs : GlobalSetup.t) (depth : nat) (w h : Z)
    (coords : Z * Z) (s : source) (rack : Rack.t) (s' : source) :
  0 <= h ->
  Rack.init gs depth w h coords s = Ok (rack, s') ->
  let k := Rack.n_shelves rack in
  1 <= k
  /\ length (Rack.shelves rack) = Z.to_nat k
  /\ (exists firsts last,
         Rack.shelves rack = firsts ++ [last]
         /\ length firsts = Z.to_nat (k - 1)
         /\ Forall (fun shelf => Shelf.height shelf = h / k) firsts
         /\ Shelf.height last = h / k / 2)
  /\ Zsum (map Shelf.height (Rack.shelves rack))
     = (k - 1) * (h / k) + h / k / 2
  /\ (k - 1) * (h / k) + h / k / 2 <= h.
Proof.
  intros Hh Hrun k.
  apply Rack_init_Ok in Hrun
    as (_ & _ & _ & Hk & firsts & last & Heq & Hlen & Hall & _ & Hlast).
  fold k in Hk, Hlen, Hall, Hlast.
  change GlobalSetup.min_number_of_shelves with 7 in Hk.
  assert (Hheights : Forall (fun shelf => Shelf.height shelf = h / k) firsts).
  { eapply Forall_impl; [|exact Hall]. cbn. intros x [_ H]. exact H. }
  split; [lia|]. split; [|split; [|split]].
  - rewrite Heq, length_app, Hlen. cbn. lia.
  - exists firsts, last. auto.
  - rewrite Heq, map_app. cbn [map].
    assert (Hsum : forall l n, Forall (fun shelf => Shelf.height shelf = n) l ->
                     forall tail, Zsum (map Shelf.height l ++ tail)
                                  = Z.of_nat (length l) * n + Zsum tail).
    { induction 1 as [|x l Hx _ IH]; intros tail; cbn [length map app].
      - cbn. lia.
      - change (Zsum (Shelf.height x :: map Shelf.height l ++ tail))
          with (Shelf.height x + Zsum (map Shelf.height l ++ tail)).
        rewrite IH, Hx. lia. }
    rewrite (Hsum _ _ Hheights), Hlen, Hlast. cbn [Zsum fold_right]. lia.
  - pose proof (Z.mul_div_le h k ltac:(lia)) as Hq.
    pose proof (Z.div_pos h k Hh ltac:(lia)) as Hq0.
    pose proof (Z.mul_div_le (h / k) 2 ltac:(lia)) as Hhalf.
    nia.
Qed.

(** C7 on a rack of 140 by 630 pixels built from the generator
    [half_words], which has 14 shelves. *)
Lemma rack_shelf_heights_witness :
  0 <= 630
  /\ exists rack s',
       Rack.init many_racks 10 140 630 (240, 135) half_words = Ok (rack, s')
       /\ Rack.n_shelves rack = 14
       /\ length (Rack.shelves rack) = 14%nat
       /\ Zsum (map Shelf.height (Rack.shelves rack)) = 13 * 45 + 22
       /\ 13 * 45 + 22 <= 630.
Proof.
  assert (Hh : 0 <= 630) by lia.
  split; [exact Hh|].
  destruct (Rack.init many_racks 10 140 630 (240, 135) half_words)
    as [[rack s']|e] eqn:Hrun.
  - exists rack, s'. split; [reflexivity|].
    assert (Hk : Rack.n_shelves rack = 14).
    { vm_compute in Hrun. injection Hrun as <- _. reflexivity. }
    destruct (rack_shelf_heights many_racks 10 140 630 (240, 135) half_words
                rack s' Hh Hrun) as (_ & Hlen & _ & Hsum & Hle).
    rewrite Hk in Hlen, Hsum, Hle. split; [exact Hk|].
    split; [exact Hlen|]. split; [exact Hsum | exact Hle].
  - vm_compute in Hrun. discriminate.
Defined.

(** ** The constructors return *)

Lemma choice_dict_total ty lb w h s :
  0 <= h -> exists item s', Shelf.choice_dict ty lb w h s = Ok (item, s').
Proof.
  intros Hh. destruct ty; cbn [Shelf.choice_dict].
  1, 2: destruct (Jar_init_total lb w h s Hh) as (j & s' & Hj);
        rewrite (bind_step _ _ _ _ _ Hj); eexists; eexists; reflexivity.
  1: destruct (Salt_init_Ok lb w h s) as (sa & s' & Hsa & _);
     rewrite (bind_step _ _ _ _ _ Hsa); eexists; eexists; reflexivity.
  1, 2: destruct (Beer_init_Ok lb w h s) as (b & s' & Hb & _);
        rewrite (bind_step _ _ _ _ _ Hb); eexists; eexists; reflexivity.
Qed.

Lemma fill_total width height item_widths :
  GlobalSetup.rack_thickness <= height ->
  forall item_lb_coords items s,
    exists items' s',
      Shelf.fill width height item_widths item_lb_coords items s
      = Ok (items', s').
Proof.
  intros Hh.
  induction item_widths as [|length item_widths IH];
    intros item_lb_coords items s; cbn [Shelf.fill].
  - eexists. eexists. reflexivity.
  - assert (Hty : exists ty, random.choice ItemType_list s
                             = Ok (ty, random.rest s))
      by (eexists; reflexivity).
    destruct Hty as (ty & Hty). rewrite (bind_step _ _ _ _ _ Hty).
    match goal with |- context [Shelf.choice_dict ty ?lb ?w ?h] =>
      destruct (choice_dict_total ty lb w h (random.rest s)) as (it & s1 & Hit);
        [lia|]
    end.
    rewrite (bind_step _ _ _ _ _ Hit). apply IH.
Qed.

Lemma Shelf_init_total gs depth w h coords color s :
  valid_item_widths gs ->
  (divide_depth gs 0 1 <= depth)%nat ->
  GlobalSetup.rack_thickness <= h ->
  exists shelf s', Shelf.init gs depth w h coords color s = Ok (shelf, s').
Proof.
  intros [Hmin Hwidths] Hdepth Hh. unfold Shelf.init.
  destruct (divide_returns gs Hwidths Hmin depth [] 0%Q 1%Q s Hdepth)
    as (ivs & s1 & Hdiv).
  rewrite (bind_step _ _ _ _ _ Hdiv).
  match goal with |- context [Shelf.fill w h ?lens ?lb ?items] =>
    destruct (fill_total w h lens Hh lb items s1) as (its & s2 & Hfill)
  end.
  rewrite (bind_step _ _ _ _ _ Hfill). eexists. eexists. reflexivity.
Qed.

Lemma stack_total gs depth count shelf_w shelf_h color :
  valid_item_widths gs ->
  (divide_depth gs 0 1 <= depth)%nat ->
  GlobalSetup.rack_thickness <= shelf_h ->
  forall s_coords shelves s,
    exists r s',
      Rack.stack gs depth count shelf_w shelf_h s_coords color shelves s
      = Ok (r, s').
Proof.
  intros Hvalid Hdepth Hh.
  induction count as [|count IH]; intros s_coords shelves s;
    cbn [Rack.stack].
  - eexists. eexists. reflexivity.
  - destruct (Shelf_init_total gs depth shelf_w shelf_h s_coords color s
                Hvalid Hdepth Hh) as (shelf & s1 & Hshelf).
    rewrite (bind_step _ _ _ _ _ Hshelf). apply IH.
Qed.

(** A rack of height at least 150 has room for every number of shelves. *)
Lemma Rack_init_total gs depth w h coords s :
  valid_item_widths gs ->
  (divide_depth gs 0 1 <= depth)%nat ->
  150 <= h ->
  exists rack s', Rack.init gs depth w h coords s = Ok (rack, s').
Proof.
  intros Hvalid Hdepth Hh. unfold Rack.init.
  destruct (randint_total GlobalSetup.min_number_of_shelves
              GlobalSetup.max_number_of_shelves s) as (k & Hk & Hrange).
  { vm_compute. discriminate. }
  change GlobalSetup.min_number_of_shelves with 7 in Hrange.
  change GlobalSetup.max_number_of_shelves with 15 in Hrange.
  rewrite (bind_step _ _ _ _ _ Hk).
  destruct (random_color_Ok (random.rest s)) as (color & Hcolor).
  rewrite (bind_step _ _ _ _ _ Hcolor).
  assert (Hdiv : forall s0, floordiv h k s0 = Ok (h / k, s0)).
  { intros s0. unfold floordiv. destruct (Z.eqb_spec k 0); [lia|reflexivity]. }
  rewrite (bind_step _ _ _ _ _ (Hdiv _)).
  assert (Hq : 10 <= h / k) by (apply Z.div_le_lower_bound; lia).
  assert (Hq1 : GlobalSetup.rack_thickness <= h / k)
    by (change GlobalSetup.rack_thickness with 5; lia).
  assert (Hq2 : GlobalSetup.rack_thickness <= h / k / 2)
    by (change GlobalSetup.rack_thickness with 5;
        apply Z.div_le_lower_bound; lia).
  destruct (Z.gtb_spec k 1) as [_|]; [|lia].
  match goal with |- context [Rack.stack gs depth ?c ?sw ?sh ?sc ?col ?l] =>
    destruct (stack_total gs depth c sw sh col Hvalid Hdepth Hq1
                sc l (random.rest (random.rest (random.rest (random.rest s)))))
      as ([shelves s_coords] & s1 & Hstack)
  end.
  rewrite (bind_step _ _ _ _ _ Hstack).
  match goal with |- context [Shelf.init gs depth ?sw ?sh ?sc ?col] =>
    destruct (Shelf_init_total gs depth sw sh sc col s1 Hvalid Hdepth Hq2)
      as (last & s2 & Hlast)
  end.
  rewrite (bind_step _ _ _ _ _ Hlast). eexists. eexists. reflexivity.
Qed.

(** ** Screen.__init__ and the drawing *)

Lemma line_up_total gs depth count rack_w rack_h :
  valid_item_widths gs ->
  (divide_depth gs 0 1 <= depth)%nat ->
  150 <= rack_h ->
  forall coords racks s,
    exists racks' s',
      Screen.line_up gs depth count rack_w rack_h coords racks s
      = Ok (racks', s').
Proof.
  intros Hvalid Hdepth Hh.
  induction count as [|count IH]; intros coords racks s;
    cbn [Screen.line_up].
  - eexists. eexists. reflexivity.
  - destruct (Rack_init_total gs depth rack_w rack_h coords s
                Hvalid Hdepth Hh) as (rack & s1 & Hrack).
    rewrite (bind_step _ _ _ _ _ Hrack). apply IH.
Qed.

(** The loop of [Screen.__init__] appends [count] racks; the first one
    stands at [coords] and has the given width. *)
Lemma line_up_Ok gs depth count rack_w rack_h :
  forall coords racks s racks' s',
    Screen.line_up gs depth count rack_w rack_h coords racks s
    = Ok (racks', s') ->
    exists new,
      racks' = racks ++ new /\ length new = count
      /\ forall rack, hd_error new = Some rack ->
                      Rack.width rack = rack_w /\ Rack.height rack = rack_h
                      /\ Rack.lb_coords rack = coords.
Proof.
  induction count as [|count IH]; intros coords racks s racks' s' Hrun;
    cbn [Screen.line_up] in Hrun.
  - apply ret_Ok in Hrun as [-> _]. exists []. split.
    + symmetry. apply app_nil_r.
    + split; [reflexivity | discriminate].
  - apply bind_Ok in Hrun as (rack & s1 & Hrack & Hrun).
    apply IH in Hrun as (new & -> & Hlen & _).
    apply Rack_init_Ok in Hrack as (Hw & Hh & Hlb & _).
    exists (rack :: new). split; [rewrite <- app_assoc; reflexivity|].
    split; [cbn; f_equal; exact Hlen|].
    intros r [= <-]. auto.
Qed.

Lemma line_up_heights gs depth count rack_w rack_h :
  forall coords racks s racks' s',
    Screen.line_up gs depth count rack_w rack_h coords racks s
    = Ok (racks', s') ->
    Forall (fun rack => Rack.height rack = rack_h) racks ->
    Forall (fun rack => Rack.height rack = rack_h) racks'.
Proof.
  induction count as [|count IH]; intros coords racks s racks' s' Hrun Hall;
    cbn [Screen.line_up] in Hrun.
  - apply ret_Ok in Hrun as [-> _]. exact Hall.
  - apply bind_Ok in Hrun as (rack & s1 & Hrack & Hrun).
    apply Rack_init_Ok in Hrack as (_ & Hh & _).
    eapply IH; [exact Hrun|]. apply Forall_app. split; [exact Hall|].
    constructor; [exact Hh | constructor].
Qed.

(** Whatever the padding, a screen that is constructed has racks of one
    height, which is at least 1. *)
Lemma Screen_racks_height gs depth resolution pad s window s' :
  Screen.init gs depth resolution pad s = Ok (window, s') ->
  1 <= Screen.rack_h window
  /\ Forall (fun rack => Rack.height rack = Screen.rack_h window)
       (Screen.racks window).
Proof.
  unfold Screen.init. cbn [GlobalSetup.window_shape]. intros Hrun.
  apply bind_Ok in Hrun as (_ & s1 & _ & Hrun).
  apply bind_Ok in Hrun as (rack_w & s2 & _ & Hrun).
  match type of Hrun with
  | (if (_ <? 1) || (?rack_h <? 1) then _ else _) _ = _ =>
      destruct (Z.ltb_spec rack_w 1); [discriminate|];
      destruct (Z.ltb_spec rack_h 1) as [|Hh]; [discriminate|]
  end.
  cbn [orb] in Hrun.
  apply bind_Ok in Hrun as (racks & s3 & Hline & Hrun).
  apply ret_Ok in Hrun as [-> _]. cbn [Screen.rack_h Screen.racks].
  split; [exact Hh|].
  eapply line_up_heights; [exact Hline | constructor].
Qed.

(** With the default padding, [Screen.__init__] divides the 1120 pixels
    between the paddings among the racks. *)
Lemma Screen_init_Ok gs depth resolution s window s' :
  Screen.init gs depth resolution (Some GlobalSetup.padding) s
  = Ok (window, s') ->
  Screen.pad window = GlobalSetup.padding
  /\ Screen.joint_rack_w window = 1120 /\ Screen.rack_h window = 630
  /\ length (Screen.racks window) = Z.to_nat (GlobalSetup.n_racks gs)
  /\ forall rack, hd_error (Screen.racks window) = Some rack ->
                  Rack.width rack = 1120 / GlobalSetup.n_racks gs
                  /\ Rack.height rack = 630
                  /\ Rack.lb_coords rack = (240, 135).
Proof.
  unfold Screen.init. cbn [GlobalSetup.window_shape]. intros Hrun.
  apply bind_Ok in Hrun as (_ & s1 & _ & Hrun).
  apply bind_Ok in Hrun as (rack_w & s2 & Hdiv & Hrun).
  apply floordiv_Ok in Hdiv as (_ & Hw & _).
  change (1600 - GlobalSetup.pad_left GlobalSetup.padding
          - GlobalSetup.pad_right GlobalSetup.padding) with 1120 in *.
  change (900 - GlobalSetup.pad_top GlobalSetup.padding
          - GlobalSetup.pad_bottom GlobalSetup.padding) with 630 in *.
  destruct ((rack_w <? 1) || (630 <? 1)); [discriminate|].
  apply bind_Ok in Hrun as (racks & s3 & Hline & Hrun).
  apply ret_Ok in Hrun as [-> _]. cbn.
  apply line_up_Ok in Hline as (new & Heq & Hlen & Hfirst).
  cbn in Heq. subst new. subst rack_w. auto.
Qed.

Lemma Screen_init_total gs depth resolution s :
  valid_item_widths gs ->
  (divide_depth gs 0 1 <= depth)%nat ->
  window_fits resolution ->
  1 <= GlobalSetup.n_racks gs <= 1120 ->
  exists window s',
    Screen.init gs depth resolution (Some GlobalSetup.padding) s
    = Ok (window, s').
Proof.
  intros Hvalid Hdepth Hfits Hn. unfold Screen.init.
  cbn [GlobalSetup.window_shape].
  assert (Hcheck :
    match resolution with
    | Some (screen_width, screen_height) =>
        if (900 >? screen_height) || (1600 >? screen_width)
        then raise ValueError else ret tt
    | None => ret tt
    end s = Ok (tt, s)).
  { destruct resolution as [[sw sh]|]; [|reflexivity].
    destruct Hfits as [Hh Hw].
    change GlobalSetup.h with 900 in Hh. change GlobalSetup.w with 1600 in Hw.
    destruct (Z.gtb_spec 900 sh); [lia|].
    destruct (Z.gtb_spec 1600 sw); [lia|]. reflexivity. }
  rewrite (bind_step _ _ _ _ _ Hcheck).
  change (1600 - GlobalSetup.pad_left GlobalSetup.padding
          - GlobalSetup.pad_right GlobalSetup.padding) with 1120.
  change (900 - GlobalSetup.pad_top GlobalSetup.padding
          - GlobalSetup.pad_bottom GlobalSetup.padding) with 630.
  assert (Hdiv : floordiv 1120 (GlobalSetup.n_racks gs) s
                 = Ok (1120 / GlobalSetup.n_racks gs, s)).
  { unfold floordiv.
    destruct (Z.eqb_spec (GlobalSetup.n_racks gs) 0); [lia|reflexivity]. }
  rewrite (bind_step _ _ _ _ _ Hdiv).
  assert (Hw : 1 <= 1120 / GlobalSetup.n_racks gs)
    by (apply Z.div_le_lower_bound; lia).
  destruct (Z.ltb_spec (1120 / GlobalSetup.n_racks gs) 1); [lia|].
  cbn [orb]. change (630 <? 1) with false. cbv iota.
  match goal with |- context [Screen.line_up gs depth ?c ?rw ?rh ?co ?l] =>
    destruct (line_up_total gs depth c rw rh Hvalid Hdepth ltac:(lia) co l s)
      as (racks & s1 & Hline)
  end.
  rewrite (bind_step _ _ _ _ _ Hline). eexists. eexists. reflexivity.
Qed.

Lemma draw_each_total {A} (draw : A -> M (list DrawCall)) (xs : list A) :
  (forall x s, exists calls s', draw x s = Ok (calls, s')) ->
  forall s, exists calls s', draw_each draw xs s = Ok (calls, s').
Proof.
  intros Hdraw. induction xs as [|x xs IH]; intros s; cbn [draw_each].
  - eexists. eexists. reflexivity.
  - destruct (Hdraw x s) as (calls & s1 & Hx).
    rewrite (bind_step _ _ _ _ _ Hx).
    destruct (IH s1) as (more & s2 & Hxs).
    rewrite (bind_step _ _ _ _ _ Hxs). eexists. eexists. reflexivity.
Qed.

Lemma Item_draw_total item s :
  exists calls s', Item_draw item s = Ok (calls, s').
Proof.
  destruct item as [j|sa|b]; cbn [Item_draw].
  - eexists. eexists. reflexivity.
  - eexists. eexists. reflexivity.
  - destruct (Beer_draw_Ok b s) as (ran & bo & la & pos & sh & _ & Hrun).
    rewrite Hrun. eexists. eexists. reflexivity.
Qed.

Lemma Shelf_draw_total shelf s :
  exists calls s', Shelf.draw shelf s = Ok (calls, s').
Proof.
  unfold Shelf.draw.
  destruct (draw_each_total Item_draw (Shelf.items shelf) Item_draw_total s)
    as (calls & s1 & Hitems).
  rewrite (bind_step _ _ _ _ _ Hitems). eexists. eexists. reflexivity.
Qed.

(** A rack is drawn as its two bars, its shelves, and its two bars again. *)
Lemma Rack_draw_Ok rack s :
  exists calls s',
    Rack.draw rack s
    = Ok (Rack.draw_rack_alone rack ++ calls ++ Rack.draw_rack_alone rack, s').
Proof.
  unfold Rack.draw.
  destruct (draw_each_total Shelf.draw (Rack.shelves rack) Shelf_draw_total s)
    as (calls & s1 & Hshelves).
  rewrite (bind_step _ _ _ _ _ Hshelves). eexists. eexists. reflexivity.
Qed.

Lemma Rack_draw_total rack s :
  exists calls s', Rack.draw rack s = Ok (calls, s').
Proof.
  destruct (Rack_draw_Ok rack s) as (calls & s' & Hrun).
  rewrite Hrun. eexists. eexists. reflexivity.
Qed.

(** The screen is drawn as the background followed by the racks; the third
    call is the right bar of the first rack. *)
Lemma Screen_draw_Ok window s :
  exists calls s',
    Screen.draw window s = Ok (calls, s')
    /\ forall rack, hd_error (Screen.racks window) = Some rack ->
                    nth_error calls 2
                    = nth_error (Rack.draw_rack_alone rack) 1.
Proof.
  unfold Screen.draw.
  destruct (draw_each_total Rack.draw (Screen.racks window) Rack_draw_total s)
    as (calls & s1 & Hracks).
  rewrite (bind_step _ _ _ _ _ Hracks). eexists. eexists.
  split; [reflexivity|].
  intros rack Hhd. destruct (Screen.racks window) as [|r racks];
    [discriminate|]. injection Hhd as ->.
  cbn [draw_each] in Hracks.
  destruct (Rack_draw_Ok rack s) as (inner & s2 & Hrack).
  rewrite (bind_step _ _ _ _ _ Hrack) in Hracks.
  apply bind_Ok in Hracks as (more & s3 & _ & Hret).
  apply ret_Ok in Hret as [-> _]. reflexivity.
Qed.

(** ** The program *)

Lemma class_body_depth s gs s' :
  GlobalSetup.class_body s = Ok (gs, s') ->
  (divide_depth gs 0 1 <= 14)%nat.
Proof.
  destruct (class_body_Ok s) as (gs0 & Hrun & _ & Hregime).
  rewrite Hrun. intros [= <- <-]. unfold divide_depth.
  destruct Hregime as [(_ & _ & ->)|(_ & _ & ->)]; vm_compute; lia.
Qed.

(** The racks of the eight possible numbers have eight different widths. *)
Lemma rack_width_injective n1 n2 :
  4 <= n1 <= 11 -> 4 <= n2 <= 11 -> 1120 / n1 = 1120 / n2 -> n1 = n2.
Proof.
  intros H1 H2 Heq.
  assert (C1 : n1 = 4 \/ n1 = 5 \/ n1 = 6 \/ n1 = 7 \/ n1 = 8 \/ n1 = 9
               \/ n1 = 10 \/ n1 = 11) by lia.
  assert (C2 : n2 = 4 \/ n2 = 5 \/ n2 = 6 \/ n2 = 7 \/ n2 = 8 \/ n2 = 9
               \/ n2 = 10 \/ n2 = 11) by lia.
  repeat (destruct C1 as [C1|C1]); subst n1;
    repeat (destruct C2 as [C2|C2]); subst n2;
    try reflexivity; vm_compute in Heq; discriminate Heq.
Qed.

(** A run draws [n_racks] from the generator as it is when the module is
    loaded, seeds the generator, and then builds and draws the screen; it
    returns, and its third call is the right bar of the first rack, whose
    position depends on [n_racks]. *)
Lemma run_Ok seeded depth resolution entropy :
  (14 <= depth)%nat ->
  window_fits resolution ->
  let n := 4 + Z.of_N (entropy 0%nat) mod 8 in
  exists gs window s1 calls s2 color,
    GlobalSetup.class_body entropy = Ok (gs, random.rest entropy)
    /\ GlobalSetup.n_racks gs = n
    /\ Screen.init gs depth resolution (Some GlobalSetup.padding)
         (seeded 677) = Ok (window, s1)
    /\ Screen.draw window s1 = Ok (calls, s2)
    /\ run seeded depth resolution entropy = Ok calls
    /\ nth_error calls 2
       = Some (rectangle
                 ((inject_Z (240 + 1120 / n - 5) - 800)%Q,
                  (inject_Z 135 - 450)%Q)
                 (5, 630) color color).
Proof.
  intros Hdepth Hfits n.
  destruct (class_body_Ok entropy) as (gs & Hgs & Hn & _).
  pose proof (class_body_valid _ _ _ Hgs) as Hvalid.
  pose proof (class_body_depth _ _ _ Hgs) as Hd.
  fold n in Hn.
  assert (Hrange : 4 <= n <= 11).
  { subst n. pose proof (Z.mod_pos_bound (Z.of_N (entropy 0%nat)) 8). lia. }
  destruct (Screen_init_total gs depth resolution (seeded 677) Hvalid
              ltac:(lia) Hfits ltac:(lia)) as (window & s1 & Hinit).
  destruct (Screen_draw_Ok window s1) as (calls & s2 & Hdraw & Hthird).
  destruct (Screen_init_Ok _ _ _ _ _ _ Hinit)
    as (_ & _ & _ & Hlen & Hfirst).
  destruct (Screen.racks window) as [|rack racks] eqn:Hracks.
  { cbn in Hlen. lia. }
  destruct (Hfirst rack eq_refl) as (Hw & Hh & Hlb).
  exists gs, window, s1, calls, s2, (Rack.color rack).
  split; [exact Hgs|]. split; [exact Hn|]. split; [exact Hinit|].
  split; [exact Hdraw|]. split.
  - unfold run, program. rewrite (bind_step _ _ _ _ _ Hgs).
    unfold main.
    assert (Hseed : random.seed seeded 677 (random.rest entropy)
                    = Ok (tt, seeded 677)) by reflexivity.
    rewrite (bind_step _ _ _ _ _ Hseed).
    rewrite (bind_step _ _ _ _ _ Hinit). rewrite Hdraw. reflexivity.
  - rewrite (Hthird rack eq_refl). unfold Rack.draw_rack_alone.
    rewrite Hw, Hh, Hlb, Hn. reflexivity.
Qed.

(** C2, on the code: the number of racks is drawn when the class
    [GlobalSetup] is defined, before [main()] calls [random.seed(677)].
    Two runs with the same seeding, depth of [Shelf.divide] and screen are
    identical when the generator's first word is the same modulo 8 when the
    module is loaded, and otherwise both return and their sequences of
    drawing calls differ. *)
Theorem seed_does_not_fix_n_racks (seeded : Z -> source) (depth : nat)
    (resolution : option (Z * Z)) (entropy1 entropy2 : source) :
  (14 <= depth)%nat ->
  window_fits resolution ->
  (Z.of_N (entropy1 0%nat) mod 8 = Z.of_N (entropy2 0%nat) mod 8 ->
   run seeded depth resolution entropy1 = run seeded depth resolution entropy2)
  /\ (Z.of_N (entropy1 0%nat) mod 8 <> Z.of_N (entropy2 0%nat) mod 8 ->
      exists calls1 calls2,
        run seeded depth resolution entropy1 = Ok calls1
        /\ run seeded depth resolution entropy2 = Ok calls2
        /\ calls1 <> calls2).
Proof.
  intros Hdepth Hfits.
  destruct (run_Ok seeded depth resolution entropy1 Hdepth Hfits)
    as (gs1 & w1 & s1 & calls1 & t1 & c1
        & Hgs1 & Hn1 & Hinit1 & Hdraw1 & Hrun1 & Hthird1).
  destruct (run_Ok seeded depth resolution entropy2 Hdepth Hfits)
    as (gs2 & w2 & s2 & calls2 & t2 & c2
        & Hgs2 & Hn2 & Hinit2 & Hdraw2 & Hrun2 & Hthird2).
  split.
  - intros Hsame.
    destruct (class_body_Ok entropy1) as (g1 & Hg1 & Hm1 & _).
    destruct (class_body_Ok entropy2) as (g2 & Hg2 & Hm2 & _).
    assert (Hgs : gs1 = gs2).
    { revert Hgs1 Hgs2. unfold GlobalSetup.class_body.
      change GlobalSetup.min_number_of_racks with 4.
      change GlobalSetup.max_number_of_racks with 11.
      assert (Hr : forall e, random.randint 4 11 e
                             = Ok (4 + Z.of_N (e 0%nat) mod 8, random.rest e))
        by reflexivity.
      rewrite !(bind_step _ _ _ _ _ (Hr _)), Hsame.
      destruct (_ <? _); intros [= <-] [= <-]; reflexivity. }
    rewrite Hrun1, Hrun2. subst gs2.
    rewrite Hinit1 in Hinit2. injection Hinit2 as <- <-.
    rewrite Hdraw1 in Hdraw2. injection Hdraw2 as <- _. reflexivity.
  - intros Hdiff. exists calls1, calls2.
    split; [exact Hrun1|]. split; [exact Hrun2|].
    intros Heq. subst calls2. rewrite Hthird1 in Hthird2.
    pose proof (Z.mod_pos_bound (Z.of_N (entropy1 0%nat)) 8 ltac:(lia)) as B1.
    pose proof (Z.mod_pos_bound (Z.of_N (entropy2 0%nat)) 8 ltac:(lia)) as B2.
    set (n1 := 4 + Z.of_N (entropy1 0%nat) mod 8) in *.
    set (n2 := 4 + Z.of_N (entropy2 0%nat) mod 8) in *.
    set (x1 := 240 + 1120 / n1 - 5) in *.
    set (x2 := 240 + 1120 / n2 - 5) in *.
    assert (Hx : (inject_Z x1 - 800)%Q = (inject_Z x2 - 800)%Q)
      by congruence.
    apply (f_equal Qnum) in Hx.
    unfold Qminus, Qplus, Qopp, inject_Z in Hx. cbn [Qnum Qden] in Hx.
    assert (Hw : 1120 / n1 = 1120 / n2) by lia.
    apply rack_width_injective in Hw; lia.
Qed.

(** C2 on two generators that differ in their first word. *)
Lemma seed_does_not_fix_n_racks_witness :
  (14 <= 14)%nat /\ window_fits None
  /\ exists calls1 calls2,
       run (fun _ => half_words) 14 None half_words = Ok calls1
       /\ run (fun _ => half_words) 14 None three_words = Ok calls2
       /\ calls1 <> calls2.
Proof.
  split; [apply le_n | split; [exact I |]].
  apply (proj2 (seed_does_not_fix_n_racks (fun _ => half_words) 14 None
                  half_words three_words (le_n 14) I)).
  vm_compute. discriminate.
Defined.

(** * Further properties of the code *)

(** ** Screen.__init__: errors and the line of racks *)

Lemma Screen_window_check gs depth screen_width screen_height pad s :
  screen_height < GlobalSetup.h \/ screen_width < GlobalSetup.w ->
  Screen.init gs depth (Some (screen_width, screen_height)) pad s
  = Raise ValueError.
Proof.
  change GlobalSetup.h with 900. change GlobalSetup.w with 1600.
  intros Hsmall. unfold Screen.init. cbn [GlobalSetup.window_shape].
  unfold bind at 1.
  destruct (Z.gtb_spec 900 screen_height) as [|Hh]; [reflexivity|].
  destruct (Z.gtb_spec 1600 screen_width) as [|Hw]; [reflexivity|]. lia.
Qed.

(** X1: [Screen()] raises [ValueError] when the window is higher or wider
    than the screen that [GlobalSetup()] has found, whatever the padding and
    the state of the generator, and before any rack is built. *)
Theorem screen_rejects_window_larger_than_screen (gs : GlobalSetup.t)
    (depth : nat) (screen_width screen_height : Z)
    (pad : option GlobalSetup.padding_t) (s : source) :
  screen_height < 900 \/ screen_width < 1600 ->
  Screen.init gs depth (Some (screen_width, screen_height)) pad s
  = Raise ValueError.
Proof.
  intros Hsmall. apply Screen_window_check. exact Hsmall.
Qed.

(** X1 on a screen of 1366 by 768 pixels. *)
Lemma screen_rejects_window_larger_than_screen_witness :
  (768 < 900 \/ 1366 < 1600)
  /\ Screen.init many_racks 14 (Some (1366, 768)) None half_words
     = Raise ValueError.
Proof.
  assert (H : 768 < 900 \/ 1366 < 1600) by (left; lia).
  split; [exact H|].
  exact (screen_rejects_window_larger_than_screen many_racks 14 1366 768 None
           half_words H).
Defined.

(** The padding that [Screen.__init__] works with. *)
Lemma Screen_init_steps gs depth resolution pad s :
  window_fits resolution ->
  GlobalSetup.n_racks gs <> 0 ->
  let p := match pad with Some p => p | None => GlobalSetup.padding end in
  let joint_rack_w := 1600 - GlobalSetup.pad_left p - GlobalSetup.pad_right p in
  let rack_w := joint_rack_w / GlobalSetup.n_racks gs in
  let rack_h := 900 - GlobalSetup.pad_top p - GlobalSetup.pad_bottom p in
  Screen.init gs depth resolution pad s
  = if (rack_w <? 1) || (rack_h <? 1)
    then Raise ValueError
    else
      (racks <- Screen.line_up gs depth (Z.to_nat (GlobalSetup.n_racks gs))
                  rack_w rack_h
                  (GlobalSetup.pad_left p, GlobalSetup.pad_bottom p) [] ;;
       ret (Screen.mk 900 1600 (GlobalSetup.n_racks gs) p joint_rack_w rack_h
              racks)) s.
Proof.
  intros Hfits Hn p joint_rack_w rack_w rack_h.
  unfold Screen.init. cbn [GlobalSetup.window_shape].
  assert (Hcheck :
    match resolution with
    | Some (screen_width, screen_height) =>
        if (900 >? screen_height) || (1600 >? screen_width)
        then raise ValueError else ret tt
    | None => ret tt
    end s = Ok (tt, s)).
  { destruct resolution as [[sw sh]|]; [|reflexivity].
    destruct Hfits as [Hh Hw].
    change GlobalSetup.h with 900 in Hh. change GlobalSetup.w with 1600 in Hw.
    destruct (Z.gtb_spec 900 sh); [lia|].
    destruct (Z.gtb_spec 1600 sw); [lia|]. reflexivity. }
  rewrite (bind_step _ _ _ _ _ Hcheck).
  assert (Hp : match pad with
               | Some pad0 => pad0
               | None =>
                   {| GlobalSetup.pad_left := py_int ((15 # 100) * inject_Z 1600);
                      GlobalSetup.pad_right := py_int ((15 # 100) * inject_Z 1600);
                      GlobalSetup.pad_top := py_int ((15 # 100) * inject_Z 900);
                      GlobalSetup.pad_bottom := py_int ((15 # 100) * inject_Z 900) |}
               end = p).
  { subst p. destruct pad; reflexivity. }
  rewrite Hp. fold joint_rack_w.
  assert (Hdiv : floordiv joint_rack_w (GlobalSetup.n_racks gs) s
                 = Ok (rack_w, s)).
  { unfold floordiv.
    destruct (Z.eqb_spec (GlobalSetup.n_racks gs) 0); [contradiction|].
    reflexivity. }
  rewrite (bind_step _ _ _ _ _ Hdiv). fold rack_h.
  destruct ((rack_w <? 1) || (rack_h <? 1)); reflexivity.
Qed.

(** X2: when the window fits the screen, [Screen(pad)] raises [ValueError]
    if the padding leaves less than one pixel of width for each rack or less
    than one pixel of height. *)
Theorem screen_rejects_large_padding (gs : GlobalSetup.t) (depth : nat)
    (resolution : option (Z * Z)) (pad : GlobalSetup.padding_t) (s : source) :
  window_fits resolution ->
  0 < GlobalSetup.n_racks gs ->
  1600 - GlobalSetup.pad_left pad - GlobalSetup.pad_right pad
  < GlobalSetup.n_racks gs
  \/ 900 - GlobalSetup.pad_top pad - GlobalSetup.pad_bottom pad < 1 ->
  Screen.init gs depth resolution (Some pad) s = Raise ValueError.
Proof.
  intros Hfits Hn Hbig.
  rewrite (Screen_init_steps gs depth resolution (Some pad) s Hfits
             ltac:(lia)).
  cbv zeta.
  destruct (Z.ltb_spec
              ((1600 - GlobalSetup.pad_left pad - GlobalSetup.pad_right pad)
               / GlobalSetup.n_racks gs) 1) as [|Hw]; [reflexivity|].
  destruct (Z.ltb_spec
              (900 - GlobalSetup.pad_top pad - GlobalSetup.pad_bottom pad) 1)
    as [|Hh]; [reflexivity|].
  exfalso. destruct Hbig as [Hbig|Hbig]; [|lia].
  assert ((1600 - GlobalSetup.pad_left pad - GlobalSetup.pad_right pad)
          / GlobalSetup.n_racks gs < 1)
    by (apply Z.div_lt_upper_bound; lia).
  lia.
Qed.

(** X2 on a padding of 800 pixels on the left and on the right. *)
Lemma screen_rejects_large_padding_witness :
  let pad := {| GlobalSetup.pad_left := 800; GlobalSetup.pad_right := 800;
                GlobalSetup.pad_top := 135; GlobalSetup.pad_bottom := 135 |} in
  window_fits None /\ 0 < GlobalSetup.n_racks many_racks
  /\ (1600 - GlobalSetup.pad_left pad - GlobalSetup.pad_right pad
      < GlobalSetup.n_racks many_racks
      \/ 900 - GlobalSetup.pad_top pad - GlobalSetup.pad_bottom pad < 1)
  /\ Screen.init many_racks 14 None (Some pad) half_words = Raise ValueError.
Proof.
  intros pad.
  assert (Hn : 0 < GlobalSetup.n_racks many_racks) by (simpl; lia).
  assert (Hbig : 1600 - GlobalSetup.pad_left pad - GlobalSetup.pad_right pad
                 < GlobalSetup.n_racks many_racks
                 \/ 900 - GlobalSetup.pad_top pad - GlobalSetup.pad_bottom pad
                    < 1) by (left; simpl; lia).
  split; [exact I|]. split; [exact Hn|]. split; [exact Hbig|].
  exact (screen_rejects_large_padding many_racks 14 None pad half_words I Hn
           Hbig).
Defined.

(** The racks that the loop of [Screen.__init__] appends stand one rack
    width apart, from [coords] on. *)
Lemma line_up_positions gs depth count rack_w rack_h :
  forall coords racks s racks' s',
    Screen.line_up gs depth count rack_w rack_h coords racks s
    = Ok (racks', s') ->
    exists new,
      racks' = racks ++ new /\ length new = count
      /\ forall i rack,
           nth_error new i = Some rack ->
           Rack.lb_coords rack
           = (fst coords + Z.of_nat i * rack_w, snd coords)
           /\ Rack.width rack = rack_w /\ Rack.height rack = rack_h.
Proof.
  induction count as [|count IH]; intros coords racks s racks' s' Hrun;
    cbn [Screen.line_up] in Hrun.
  - apply ret_Ok in Hrun as [-> _]. exists []. split.
    + symmetry. apply app_nil_r.
    + split; [reflexivity|]. intros [|i] rack H; discriminate H.
  - apply bind_Ok in Hrun as (rack & s1 & Hrack & Hrun).
    apply IH in Hrun as (new & -> & Hlen & Hnew).
    apply Rack_init_Ok in Hrack as (Hw & Hh & Hlb & _).
    exists (rack :: new). split; [rewrite <- app_assoc; reflexivity|].
    split; [cbn; f_equal; exact Hlen|].
    intros [|i] r Hr; cbn [nth_error] in Hr.
    + injection Hr as <-. split; [|auto]. rewrite Hlb.
      destruct coords as [x y]. cbn. f_equal. lia.
    + destruct (Hnew i r Hr) as (Hp & Hrest). split; [|exact Hrest].
      rewrite Hp. cbn [fst snd]. f_equal. lia.
Qed.

(** X3: in a screen constructed for a positive number of racks, the racks
    stand side by side from the left padding on: there are [n_racks] of them,
    rack [i] has its left-bottom corner at
    [(pad_left + i * rack_w, pad_bottom)], width
    [rack_w = joint_rack_w // n_racks] and height [rack_h], both at least 1;
    together they cover [n_racks * rack_w] pixels, which leaves fewer than
    [n_racks] pixels of [joint_rack_w] unused on the right. *)
Theorem screen_racks_side_by_side (gs : GlobalSetup.t) (depth : nat)
    (resolution : option (Z * Z)) (pad : option GlobalSetup.padding_t)
    (s : source) (window : Screen.t) (s' : source) :
  0 < GlobalSetup.n_racks gs ->
  Screen.init gs depth resolution pad s = Ok (window, s') ->
  let p := Screen.pad window in
  let n := Screen.n_racks window in
  let rack_w := Screen.joint_rack_w window / n in
  n = GlobalSetup.n_racks gs
  /\ p = match pad with Some p => p | None => GlobalSetup.padding end
  /\ Screen.joint_rack_w window
     = 1600 - GlobalSetup.pad_left p - GlobalSetup.pad_right p
  /\ Screen.rack_h window
     = 900 - GlobalSetup.pad_top p - GlobalSetup.pad_bottom p
  /\ 1 <= rack_w /\ 1 <= Screen.rack_h window
  /\ length (Screen.racks window) = Z.to_nat n
  /\ (forall i rack,
         nth_error (Screen.racks window) i = Some rack ->
         Rack.lb_coords rack
         = (GlobalSetup.pad_left p + Z.of_nat i * rack_w,
            GlobalSetup.pad_bottom p)
         /\ Rack.width rack = rack_w
         /\ Rack.height rack = Screen.rack_h window
         /\ GlobalSetup.pad_left p + (Z.of_nat i + 1) * rack_w
            <= GlobalSetup.pad_left p + Screen.joint_rack_w window)
  /\ 0 <= Screen.joint_rack_w window - n * rack_w < n.
Proof.
  intros Hn Hrun.
  assert (Hfits : window_fits resolution).
  { destruct resolution as [[sw sh]|]; [|exact I]. unfold window_fits.
    destruct (Z.lt_ge_cases sh GlobalSetup.h) as [Hh|Hh];
      [rewrite Screen_window_check in Hrun by (left; exact Hh);
       discriminate|].
    destruct (Z.lt_ge_cases sw GlobalSetup.w) as [Hw|Hw];
      [rewrite Screen_window_check in Hrun by (right; exact Hw);
       discriminate|].
    split; assumption. }
  rewrite (Screen_init_steps gs depth resolution pad s Hfits ltac:(lia))
    in Hrun.
  cbv zeta in Hrun.
  set (p0 := match pad with Some p => p | None => GlobalSetup.padding end) in *.
  set (jw := 1600 - GlobalSetup.pad_left p0 - GlobalSetup.pad_right p0) in *.
  set (rh := 900 - GlobalSetup.pad_top p0 - GlobalSetup.pad_bottom p0) in *.
  destruct (Z.ltb_spec (jw / GlobalSetup.n_racks gs) 1) as [|Hw];
    [discriminate|].
  destruct (Z.ltb_spec rh 1) as [|Hh]; [discriminate|].
  cbn [orb] in Hrun.
  apply bind_Ok in Hrun as (racks & s1 & Hline & Hret).
  apply ret_Ok in Hret as [-> _].
  apply line_up_positions in Hline as (new & Heq & Hlen & Hpos).
  cbn in Heq. subst new.
  cbn [Screen.pad Screen.n_racks Screen.joint_rack_w Screen.rack_h
       Screen.racks].
  pose proof (Z.mul_div_le jw (GlobalSetup.n_racks gs) Hn) as Hle.
  pose proof (Z.mul_succ_div_gt jw (GlobalSetup.n_racks gs) Hn) as Hgt.
  do 4 (split; [reflexivity|]). split; [exact Hw|]. split; [exact Hh|].
  split; [exact Hlen|]. split; [|lia].
  intros i rack Hi. destruct (Hpos i rack Hi) as (Hlb & Hrw & Hrh).
  cbn [fst snd] in Hlb. split; [exact Hlb|]. split; [exact Hrw|].
  split; [exact Hrh|].
  assert (Hi' : (i < length racks)%nat)
    by (apply nth_error_Some; rewrite Hi; discriminate).
  rewrite Hlen in Hi'.
  assert (Z.of_nat i + 1 <= GlobalSetup.n_racks gs) by lia.
  nia.
Qed.

(** X3 on the screen of the regime of many racks with the default padding. *)
Lemma screen_racks_side_by_side_witness :
  0 < GlobalSetup.n_racks many_racks
  /\ exists window s',
       Screen.init many_racks 14 None None half_words = Ok (window, s')
       /\ Screen.joint_rack_w window = 1120
       /\ Screen.rack_h window = 630
       /\ length (Screen.racks window) = 8%nat
       /\ forall i rack,
            nth_error (Screen.racks window) i = Some rack ->
            Rack.lb_coords rack = (240 + Z.of_nat i * 140, 135)
            /\ Rack.width rack = 140 /\ Rack.height rack = 630.
Proof.
  assert (Hn : 0 < GlobalSetup.n_racks many_racks) by (simpl; lia).
  split; [exact Hn|].
  assert (Hvalid : valid_item_widths many_racks)
    by (split; [unfold Qlt | unfold Qle]; simpl; lia).
  assert (Hrun : exists window s',
             Screen.init many_racks 14 None None half_words = Ok (window, s')).
  { rewrite (Screen_init_steps many_racks 14 None None half_words I
               ltac:(simpl; lia)).
    cbv zeta.
    change (GlobalSetup.n_racks many_racks) with 8.
    change (1600 - GlobalSetup.pad_left GlobalSetup.padding
            - GlobalSetup.pad_right GlobalSetup.padding) with 1120.
    change (900 - GlobalSetup.pad_top GlobalSetup.padding
            - GlobalSetup.pad_bottom GlobalSetup.padding) with 630.
    change ((1120 / 8 <? 1) || (630 <? 1)) with false. cbv iota.
    destruct (line_up_total many_racks 14 (Z.to_nat 8) (1120 / 8) 630 Hvalid
                ltac:(vm_compute; lia) ltac:(lia)
                (GlobalSetup.pad_left GlobalSetup.padding,
                 GlobalSetup.pad_bottom GlobalSetup.padding) [] half_words)
      as (racks & s1 & Hline).
    rewrite (bind_step _ _ _ _ _ Hline). eexists. eexists. reflexivity. }
  destruct Hrun as (window & s' & Hrun).
  exists window, s'. split; [exact Hrun|].
  destruct (screen_racks_side_by_side many_racks 14 None None half_words
              window s' Hn Hrun)
    as (Hnr & Hp & Hjw & Hrh & _ & _ & Hlen & Hpos & _).
  cbv zeta in Hpos. rewrite Hp in Hjw, Hrh, Hpos. rewrite Hnr in Hlen, Hpos.
  rewrite Hjw in Hpos. rewrite Hrh in Hpos.
  split; [exact Hjw|]. split; [exact Hrh|]. split; [exact Hlen|].
  intros i rack Hi. destruct (Hpos i rack Hi) as (Hlb & Hw & Hh & _).
  split; [exact Hlb|]. split; [exact Hw | exact Hh].
Defined.

(** ** Rack.__init__: where the shelves are *)

(** The shelves that the loop of [Rack.__init__] appends stand one shelf
    height apart, from [s_coords] on. *)
Lemma stack_positions gs depth count :
  forall shelf_w shelf_h s_coords color shelves s shelves' s_coords' s',
    Rack.stack gs depth count shelf_w shelf_h s_coords color shelves s
    = Ok ((shelves', s_coords'), s') ->
    exists new,
      shelves' = shelves ++ new /\ length new = count
      /\ s_coords' = (fst s_coords, snd s_coords + Z.of_nat count * shelf_h)
      /\ forall i shelf,
           nth_error new i = Some shelf ->
           Shelf.lb_coords shelf
           = (fst s_coords, snd s_coords + Z.of_nat i * shelf_h)
           /\ Shelf.width shelf = shelf_w /\ Shelf.height shelf = shelf_h
           /\ Shelf.color shelf = color.
Proof.
  induction count as [|count IH];
    intros shelf_w shelf_h s_coords color shelves s shelves' s_coords' s' Hrun;
    cbn [Rack.stack] in Hrun.
  - apply ret_Ok in Hrun as [[= -> ->] _]. exists []. split.
    + symmetry. apply app_nil_r.
    + split; [reflexivity|]. split.
      * destruct s_coords as [x y]. cbn. f_equal. lia.
      * intros [|i] shelf H; discriminate H.
  - apply bind_Ok in Hrun as (shelf & s1 & Hshelf & Hrun).
    apply IH in Hrun as (new & -> & Hlen & -> & Hnew).
    apply Shelf_init_Ok in Hshelf as (_ & _ & _ & Hw & Hh & Hlb & Hc & _).
    exists (shelf :: new). split; [rewrite <- app_assoc; reflexivity|].
    split; [cbn; f_equal; exact Hlen|]. split.
    + cbn [fst snd]. f_equal. lia.
    + intros [|i] sh Hsh; cbn [nth_error] in Hsh.
      * injection Hsh as <-. split; [|auto]. rewrite Hlb.
        destruct s_coords as [x y]. cbn. f_equal. lia.
      * destruct (Hnew i sh Hsh) as (Hp & Hrest). split; [|exact Hrest].
        rewrite Hp. cbn [fst snd]. f_equal. lia.
Qed.

(** X4: in a rack constructed with height [h >= 0], shelf [i] has its
    left-bottom corner at
    [(x + rack_thickness, y + shelf_h // 2 - rack_thickness // 2 + i * shelf_h)]
    for [shelf_h = h // n_shelves], the width of the rack less the two bars,
    and the color of the rack; the shelf and the room above it end below the
    top of the rack. *)
Theorem rack_shelves_placed (gs : GlobalSetup.t) (depth : nat) (w h : Z)
    (coords : Z * Z) (s : source) (rack : Rack.t) (s' : source) :
  0 <= h ->
  Rack.init gs depth w h coords s = Ok (rack, s') ->
  let shelf_h := h / Rack.n_shelves rack in
  forall i shelf,
    nth_error (Rack.shelves rack) i = Some shelf ->
    Shelf.lb_coords shelf
    = (fst coords + GlobalSetup.rack_thickness,
       snd coords + shelf_h / 2 - GlobalSetup.rack_thickness / 2
       + Z.of_nat i * shelf_h)
    /\ Shelf.width shelf = w - 2 * GlobalSetup.rack_thickness
    /\ Shelf.color shelf = Rack.color rack
    /\ snd (Shelf.lb_coords shelf) + Shelf.height shelf <= snd coords + h.
Proof.
  intros Hh Hrun. unfold Rack.init in Hrun.
  apply bind_Ok in Hrun as (k & s1 & Hk & Hrun).
  apply randint_Ok in Hk as [Hk _].
  change GlobalSetup.min_number_of_shelves with 7 in Hk.
  apply bind_Ok in Hrun as (color & s2 & _ & Hrun).
  apply bind_Ok in Hrun as (q & s3 & Hdiv & Hrun).
  apply floordiv_Ok in Hdiv as (_ & -> & _).
  apply bind_Ok in Hrun as ([shelves s_coords] & s4 & Hstack & Hrun).
  apply bind_Ok in Hrun as (last & s5 & Hlast & Hrun).
  apply ret_Ok in Hrun as [-> _].
  cbn [Rack.n_shelves Rack.shelves Rack.color].
  destruct (Z.gtb_spec k 1) as [_|]; [|lia].
  apply stack_positions in Hstack as (new & Heq & Hlen & -> & Hnew).
  cbn in Heq. subst new.
  apply Shelf_init_Ok in Hlast as (_ & _ & _ & Hlw & Hlh & Hllb & Hlc & _).
  cbn [fst snd] in *.
  pose proof (Z.mul_div_le h k ltac:(lia)) as Hq.
  pose proof (Z.div_pos h k Hh ltac:(lia)) as Hq0.
  pose proof (Z.mul_div_le (h / k) 2 ltac:(lia)) as Hhalf.
  change (GlobalSetup.rack_thickness / 2) with 2 in *.
  change GlobalSetup.rack_thickness with 5 in *.
  intros i shelf Hi.
  destruct (Nat.lt_ge_cases i (length shelves)) as [Hlt|Hge].
  - rewrite nth_error_app1 in Hi by exact Hlt.
    destruct (Hnew i shelf Hi) as (Hp & Hw & Hsh & Hc).
    split; [exact Hp|]. split; [exact Hw|]. split; [exact Hc|].
    rewrite Hp, Hsh. cbn [snd].
    assert (Z.of_nat i + 1 <= k - 1) by lia. nia.
  - rewrite nth_error_app2 in Hi by exact Hge.
    destruct (i - length shelves)%nat as [|j] eqn:Hj;
      [|destruct j; discriminate Hi].
    cbn in Hi. injection Hi as <-.
    assert (Hi : Z.of_nat i = k - 1) by lia.
    split; [rewrite Hllb; f_equal; lia|]. split; [exact Hlw|].
    split; [exact Hlc|]. rewrite Hllb, Hlh. cbn [snd]. nia.
Qed.

(** X4 on a rack of 140 by 630 pixels. *)
Lemma rack_shelves_placed_witness :
  0 <= 630
  /\ exists rack s',
       Rack.init many_racks 14 140 630 (240, 135) half_words = Ok (rack, s')
       /\ forall i shelf,
            nth_error (Rack.shelves rack) i = Some shelf ->
            Shelf.width shelf = 130
            /\ Shelf.color shelf = Rack.color rack
            /\ snd (Shelf.lb_coords shelf) + Shelf.height shelf <= 135 + 630.
Proof.
  assert (Hh : 0 <= 630) by lia.
  split; [exact Hh|].
  assert (Hvalid : valid_item_widths many_racks)
    by (split; [unfold Qlt | unfold Qle]; simpl; lia).
  destruct (Rack_init_total many_racks 14 140 630 (240, 135) half_words Hvalid
              ltac:(vm_compute; lia) ltac:(lia)) as (rack & s' & Hrun).
  exists rack, s'. split; [exact Hrun|].
  intros i shelf Hi.
  destruct (rack_shelves_placed many_racks 14 140 630 (240, 135) half_words
              rack s' Hh Hrun i shelf Hi) as (_ & Hw & Hc & Htop).
  split; [exact Hw|]. split; [exact Hc | exact Htop].
Defined.

(** ** Colors *)

Ltac step_randint :=
  match goal with
  | |- context [bind (random.randint ?a ?b) _ ?s] =>
      let r := fresh "r" in
      let Hr := fresh "Hr" in
      let Hb := fresh "Hb" in
      destruct (randint_total a b s ltac:(lia)) as (r & Hr & Hb);
      rewrite (bind_step _ _ _ _ _ Hr)
  end.

(** X5: the three color generators always return a color whose channels
    lie between 0 and 255: [random_color] any such color, [random_gray]
    three equal channels of at least 0xCC, and [random_beer_color] either a
    dark green (red and blue at most 0x10, green from 0x70 to 0x90) or a
    brown (red from 0x49 to 0x69, green from 0x2C to 0x4C, blue at most
    0x2F). *)
Theorem colors_in_range (s : source) :
  (exists r g b s',
      Color.random_color s = Ok ((r, g, b), s')
      /\ 0 <= r <= 255 /\ 0 <= g <= 255 /\ 0 <= b <= 255)
  /\ (exists value s',
         Color.random_gray s = Ok ((value, value, value), s')
         /\ 204 <= value <= 255)
  /\ (exists r g b s',
         Color.random_beer_color s = Ok ((r, g, b), s')
         /\ ((0 <= r <= 16 /\ 112 <= g <= 144 /\ 0 <= b <= 16)
             \/ (73 <= r <= 105 /\ 44 <= g <= 76 /\ 0 <= b <= 47))).
Proof.
  split; [|split].
  - unfold Color.random_color. do 3 step_randint.
    do 4 eexists. split; [reflexivity|]. lia.
  - unfold Color.random_gray. step_randint.
    do 2 eexists. split; [reflexivity|]. lia.
  - unfold Color.random_beer_color. step_randint.
    destruct (r =? 0); do 3 step_randint;
      do 4 eexists; (split; [reflexivity|]); lia.
Qed.

(** ** The constructors of the items *)

(** X6: [Jar(lb_coords, w, h)] raises [ValueError] when [h < -1], because
    the range from [h // 2] to [h] is then empty; otherwise it returns a jar
    at [lb_coords] of width [w] and of a height between [h // 2] and [h]. *)
Theorem jar_height_range (lb : Coords.t) (w h : Z) (s : source) :
  (h < -1 -> Jar.init lb w h s = Raise ValueError)
  /\ (-1 <= h ->
      exists j s',
        Jar.init lb w h s = Ok (j, s')
        /\ Jar.lb_coords j = lb /\ Jar.w j = w /\ h / 2 <= Jar.h j <= h).
Proof.
  unfold Jar.init.
  destruct (AbstractItem_init_Ok lb w h s) as (color & Hsuper).
  rewrite (bind_step _ _ _ _ _ Hsuper).
  pose proof (Z.mul_div_le h 2 ltac:(lia)) as Hlo.
  pose proof (Z.mul_succ_div_gt h 2 ltac:(lia)) as Hhi.
  split; intros Hh.
  - unfold bind, random.randint.
    destruct (Z.leb_spec (h / 2) h); [lia | reflexivity].
  - destruct (randint_total (h / 2) h
                (random.rest (random.rest (random.rest s))))
      as (h' & Hh' & Hrange); [lia|].
    rewrite (bind_step _ _ _ _ _ Hh').
    do 2 eexists. split; [reflexivity|]. cbn. auto.
Qed.

(** X6 at the heights -2 and 40. *)
Lemma jar_height_range_witness :
  -2 < -1 /\ -1 <= 40
  /\ Jar.init (Coords.init 0 0) 10 (-2) zero_words = Raise ValueError
  /\ exists j s',
       Jar.init (Coords.init 0 0) 10 40 zero_words = Ok (j, s')
       /\ 20 <= Jar.h j <= 40.
Proof.
  assert (H1 : -2 < -1) by lia. assert (H2 : -1 <= 40) by lia.
  split; [exact H1|]. split; [exact H2|]. split.
  - exact (proj1 (jar_height_range (Coords.init 0 0) 10 (-2) zero_words) H1).
  - destruct (proj2 (jar_height_range (Coords.init 0 0) 10 40 zero_words) H2)
      as (j & s' & Hrun & _ & _ & Hh).
    exists j, s'. split; [exact Hrun | exact Hh].
Defined.


(** X8: [Salt(lb_coords, w, h)] always returns a salt no wider than [w]
    that stays between [lb_coords.x] and [lb_coords.x + w], and whose
    triangle is less than [h + 1] high.  When the salt is made narrower, its
    width is the largest whole number whose triangle is at most [h] high. *)
Theorem salt_triangle_fits (lb : Coords.t) (w h : Z) (s : source) :
  exists salt s',
    Salt.init lb w h s = Ok (salt, s')
    /\ (Salt.w salt <= inject_Z w)%Q
    /\ (triangle_height (Salt.w salt) < inject_Z h + 1)%Q
    /\ ((Salt.w salt < inject_Z w)%Q ->
        exists new_w : Z,
          Salt.w salt = inject_Z new_w
          /\ (triangle_height (inject_Z new_w) <= inject_Z h)%Q
          /\ (inject_Z h < triangle_height (inject_Z (new_w + 1)))%Q)
    /\ (Coords.x lb <= Coords.x (Salt.lb_coords salt))%Q
    /\ (Coords.x (Salt.lb_coords salt) + Salt.w salt
        <= Coords.x lb + inject_Z w)%Q.
Proof.
  destruct (Salt_init_Ok lb w h s) as (salt & s' & Hrun & _ & Hshape).
  exists salt, s'. split; [exact Hrun|].
  destruct Hshape as [(Hcmp & Hw & Hlb)|(Hcmp & Hw & Hlb)].
  - rewrite Hw, Hlb. split; [lra|].
    split; [apply Salt_kept_width; exact Hcmp|].
    split; [intros Habs; lra|]. split; lra.
  - destruct (Salt_shrunk_width w h Hcmp) as (Hlt & Hfit & Hd0 & Hd1).
    cbn zeta in Hlt, Hfit, Hd0, Hd1.
    rewrite <- Hw in Hlt, Hfit, Hd0, Hd1.
    rewrite Hlb, Coords_x_moved.
    split; [lra|]. split; [lra|]. split; [|split; lra].
    intros _. exists (Qfloor (inject_Z h / (Salt.sqrt3 / 2))).
    split; [exact Hw|]. unfold py_floordiv in Hw. rewrite <- Hw.
    split; [exact Hfit|].
    pose proof sqrt3_half_pos as Hk.
    pose proof (Qlt_floor (inject_Z h / (Salt.sqrt3 / 2))) as Hfl.
    unfold triangle_height.
    set (k := (Salt.sqrt3 / 2)%Q) in *.
    set (f := Qfloor (inject_Z h / k)) in *.
    assert (Hth : (inject_Z (f + 1) * Salt.sqrt3 / 2
                   == inject_Z (f + 1) * k)%Q)
      by (subst k; unfold Qdiv; ring).
    rewrite Hth.
    assert (Hq : (inject_Z h / k * k == inject_Z h)%Q) by (field; lra).
    set (hk := (inject_Z h / k)%Q) in *. nra.
Qed.

(** X8 on a salt in a slot of 100 by 40 pixels, which is made 46 wide. *)
Lemma salt_triangle_fits_witness :
  exists salt s',
    Salt.init (Coords.init 240 140) 100 40 zero_words = Ok (salt, s')
    /\ Salt.w salt = inject_Z 46
    /\ (triangle_height (inject_Z 46) <= inject_Z 40)%Q
    /\ (inject_Z 40 < triangle_height (inject_Z (46 + 1)))%Q.
Proof.
  destruct (salt_triangle_fits (Coords.init 240 140) 100 40 zero_words)
    as (salt & s' & Hrun & _ & _ & Hshrunk & _).
  exists salt, s'. split; [exact Hrun|].
  assert (Hw : Salt.w salt = inject_Z 46).
  { pose proof Hrun as Hval. vm_compute in Hval.
    injection Hval as Hsalt _. rewrite <- Hsalt. reflexivity. }
  split; [exact Hw|].
  destruct Hshrunk as (new_w & Hnew & Hfit & Hnext);
    [rewrite Hw; reflexivity|].
  rewrite Hw in Hnew. injection Hnew as <-.
  split; [exact Hfit | exact Hnext].
Defined.

(** ** What the items draw *)

Lemma Coords_moved_coords lb dx dy :
  Coords_consistent lb ->
  Coords.same (Coords.coords (Coords_moved lb (dx, dy)))
    (fst (Coords.coords lb) + dx, snd (Coords.coords lb) + dy)%Q.
Proof.
  intros [Hx Hy]. unfold Coords_moved, Coords.undo_shift, Coords.add_unbiased,
    Coords.init, Coords.same.
  cbn [fst snd Coords.coords Coords.x Coords.y]. rewrite Hx, Hy.
  split; ring.
Qed.

Lemma py_int_div a b :
  0 <= a -> 0 < b -> py_int (inject_Z a / inject_Z b) = a / b.
Proof.
  intros Ha Hb. rewrite py_int_floor.
  - symmetry. apply Zdiv_Qdiv.
  - apply Qle_shift_div_l.
    + change 0%Q with (inject_Z 0). rewrite <- Zlt_Qlt. exact Hb.
    + rewrite Qmult_0_l. change 0%Q with (inject_Z 0). rewrite <- Zle_Qle.
      exact Ha.
Qed.

(** A rectangle drawn at a point lies in the box at that point when it is
    not larger than the box. *)
Lemma rectangle_at_corner_in_box lb w h rw rh bg pen :
  0 <= rw <= w -> 0 <= rh <= h ->
  call_in_box (Coords.coords lb) (inject_Z w) (inject_Z h)
    (DrawingMethods.draw_rectangle lb (rw, rh) bg pen).
Proof.
  intros [Hw0 Hw] [Hh0 Hh]. rewrite Zle_Qle in Hw0, Hw, Hh0, Hh.
  change (inject_Z 0) with 0%Q in *.
  unfold DrawingMethods.draw_rectangle, call_in_box, point_in_box.
  cbn [fst snd]. repeat split; lra.
Qed.

(** A rectangle drawn at a point moved by an offset lies in the box at the
    point when the offset and the rectangle together do not leave the box. *)
Lemma rectangle_at_offset_in_box lb w h dx dy rw rh bg pen :
  Coords_consistent lb ->
  0 <= dx -> 0 <= rw -> dx + rw <= w ->
  0 <= dy -> 0 <= rh -> dy + rh <= h ->
  call_in_box (Coords.coords lb) (inject_Z w) (inject_Z h)
    (DrawingMethods.draw_rectangle
       (Coords_moved lb (inject_Z dx, inject_Z dy)) (rw, rh) bg pen).
Proof.
  intros Hlb Hdx Hrw Hw Hdy Hrh Hh.
  destruct (Coords_moved_coords lb (inject_Z dx) (inject_Z dy) Hlb)
    as [Hx Hy].
  cbn [fst snd] in Hx, Hy.
  rewrite Zle_Qle in Hdx, Hrw, Hw, Hdy, Hrh, Hh.
  rewrite inject_Z_plus in Hw, Hh. change (inject_Z 0) with 0%Q in *.
  unfold DrawingMethods.draw_rectangle, call_in_box, point_in_box.
  cbn [fst snd]. rewrite Hx, Hy. repeat split; lra.
Qed.

(** X9: a jar of width [w >= 0] and height [h >= 15] draws four rectangles,
    the body, the lid, the content and the label, which all lie in the box
    of width [w] and height [h] at the jar's position; the lid starts at the
    height where the body ends. *)
Theorem jar_drawn_in_its_box (j : Jar.t) (s : source) :
  Coords_consistent (Jar.lb_coords j) ->
  0 <= Jar.w j ->
  15 <= Jar.h j ->
  exists body lid content label,
    Jar.draw j s = Ok ([body; lid; content; label], s)
    /\ Forall (call_in_box (Coords.coords (Jar.lb_coords j))
                 (inject_Z (Jar.w j)) (inject_Z (Jar.h j)))
         [body; lid; content; label]
    /\ (snd (call_pos lid) == call_top body)%Q.
Proof.
  intros Hlb Hw Hh. unfold Jar.draw. do 4 eexists.
  split; [reflexivity|].
  assert (Hbody : py_int (inject_Z (Jar.h j * 6) / 7) = Jar.h j * 6 / 7)
    by (apply (py_int_div (Jar.h j * 6) 7); lia).
  rewrite Hbody.
  pose proof (Z.mul_div_le (Jar.h j * 6) 7 ltac:(lia)).
  pose proof (Z.mul_div_le (6 * Jar.h j) 7 ltac:(lia)).
  pose proof (Z.mul_succ_div_gt (6 * Jar.h j) 7 ltac:(lia)).
  pose proof (Z.mul_div_le (Jar.h j) 7 ltac:(lia)).
  pose proof (Z.mul_succ_div_gt (Jar.h j) 7 ltac:(lia)).
  pose proof (Z.mul_div_le (54 * Jar.h j) 70 ltac:(lia)).
  pose proof (Z.mul_div_le (3 * Jar.h j) 14 ltac:(lia)).
  pose proof (Z.mul_div_le (3 * Jar.h j) 7 ltac:(lia)).
  pose proof (Z.mul_div_le (Jar.w j) 10 ltac:(lia)).
  pose proof (Z.mul_div_le (4 * Jar.w j) 5 ltac:(lia)).
  pose proof (Z.mul_div_le (Jar.w j) 4 ltac:(lia)).
  pose proof (Z.mul_div_le (Jar.w j) 2 ltac:(lia)).
  assert (0 <= Jar.h j * 6 / 7) by (apply Z.div_pos; lia).
  assert (0 <= 6 * Jar.h j / 7) by (apply Z.div_pos; lia).
  assert (0 <= Jar.h j / 7) by (apply Z.div_pos; lia).
  assert (0 <= 54 * Jar.h j / 70) by (apply Z.div_pos; lia).
  assert (0 <= 3 * Jar.h j / 14) by (apply Z.div_pos; lia).
  assert (0 <= 3 * Jar.h j / 7) by (apply Z.div_pos; lia).
  assert (0 <= Jar.w j / 10) by (apply Z.div_pos; lia).
  assert (0 <= 4 * Jar.w j / 5) by (apply Z.div_pos; lia).
  assert (0 <= Jar.w j / 4) by (apply Z.div_pos; lia).
  assert (0 <= Jar.w j / 2) by (apply Z.div_pos; lia).
  split.
  - repeat apply Forall_cons; [| | | |apply Forall_nil].
    + apply rectangle_at_corner_in_box; lia.
    + apply (rectangle_at_offset_in_box (Jar.lb_coords j) (Jar.w j) (Jar.h j)
               (Jar.w j / 10) (6 * Jar.h j / 7)); try assumption; lia.
    + apply rectangle_at_corner_in_box; lia.
    + apply (rectangle_at_offset_in_box (Jar.lb_coords j) (Jar.w j) (Jar.h j)
               (Jar.w j / 4) (3 * Jar.h j / 14)); try assumption; lia.
  - destruct (Coords_moved_coords (Jar.lb_coords j)
                (inject_Z (Jar.w j / 10)) (inject_Z (6 * Jar.h j / 7)) Hlb)
      as [_ Hy].
    unfold DrawingMethods.draw_rectangle, call_pos, call_top. cbn [fst snd].
    unfold Coords_moved in Hy. cbn [fst snd] in Hy. rewrite Hy.
    replace (Jar.h j * 6) with (6 * Jar.h j) by lia. reflexivity.
Qed.

(** X9 on a jar of 40 by 30 pixels. *)
Lemma jar_drawn_in_its_box_witness :
  let j := Jar.mk (Coords.init 240 140) 40 30 Color.white in
  Coords_consistent (Jar.lb_coords j) /\ 0 <= Jar.w j /\ 15 <= Jar.h j
  /\ exists body lid content label,
       Jar.draw j zero_words = Ok ([body; lid; content; label], zero_words)
       /\ Forall (call_in_box (Coords.coords (Jar.lb_coords j))
                    (inject_Z 40) (inject_Z 30))
            [body; lid; content; label].
Proof.
  intros j.
  assert (Hlb : Coords_consistent (Jar.lb_coords j))
    by apply Coords_init_consistent.
  assert (Hw : 0 <= Jar.w j) by (simpl; lia).
  assert (Hh : 15 <= Jar.h j) by (simpl; lia).
  split; [exact Hlb|]. split; [exact Hw|]. split; [exact Hh|].
  destruct (jar_drawn_in_its_box j zero_words Hlb Hw Hh)
    as (body & lid & content & label & Hrun & Hbox & _).
  exists body, lid, content, label. split; [exact Hrun | exact Hbox].
Defined.



(** The items of a list draw one call list each and consume one word of the
    generator for each beer. *)
Lemma draw_items_Ok items :
  forall s,
    exists calls,
      draw_each Item_draw items s
      = Ok (calls, Nat.iter (count_beers items) random.rest s)
      /\ length calls = count_calls items.
Proof.
  induction items as [|item items IH]; intros s; cbn [draw_each].
  - exists []. split; reflexivity.
  - destruct item as [j|sa|b].
    + destruct (IH s) as (more & Hmore & Hlen).
      assert (Hj : Item_draw (AJar j) s = Jar.draw j s) by reflexivity.
      unfold bind at 1. rewrite Hj. unfold Jar.draw, ret at 1.
      rewrite (bind_step _ _ _ _ _ Hmore).
      eexists. split; [reflexivity|].
      cbn [length app count_calls fold_right]. fold (count_calls items).
      rewrite Hlen. reflexivity.
    + destruct (IH s) as (more & Hmore & Hlen).
      unfold bind at 1. cbn [Item_draw]. unfold Salt.draw, ret at 1.
      rewrite (bind_step _ _ _ _ _ Hmore).
      eexists. split; [reflexivity|].
      cbn [length app count_calls fold_right]. fold (count_calls items).
      rewrite Hlen. reflexivity.
    + destruct (Beer_draw_Ok b s) as (ran & bo & la & pos & sh & _ & Hb).
      cbn [Item_draw]. rewrite (bind_step _ _ _ _ _ Hb).
      destruct (IH (random.rest s)) as (more & Hmore & Hlen).
      rewrite (bind_step _ _ _ _ _ Hmore).
      eexists. split.
      * unfold ret. unfold count_beers. cbn [filter length].
        fold (count_beers items). rewrite Nat.iter_succ_r. reflexivity.
      * cbn [length app count_calls fold_right]. fold (count_calls items).
        rewrite Hlen. reflexivity.
Qed.

(** X11: drawing a shelf always returns; it emits the board and then four
    calls for each jar, one for each salt and three for each beer, and it
    advances the generator by exactly one word for each beer on the shelf. *)
Theorem shelf_draw_takes_one_word_per_beer (shelf : Shelf.t) (s : source) :
  exists board calls,
    Shelf.draw shelf s
    = Ok (board :: calls,
          Nat.iter (count_beers (Shelf.items shelf)) random.rest s)
    /\ board
       = rectangle
           (Coords.coords
              (Coords.init (inject_Z (fst (Shelf.lb_coords shelf)))
                 (inject_Z (snd (Shelf.lb_coords shelf)))))
           (Shelf.width shelf, GlobalSetup.rack_thickness)
           (Shelf.color shelf) (Shelf.color shelf)
    /\ length calls = count_calls (Shelf.items shelf).
Proof.
  unfold Shelf.draw.
  destruct (draw_items_Ok (Shelf.items shelf) s) as (calls & Hcalls & Hlen).
  rewrite (bind_step _ _ _ _ _ Hcalls).
  eexists. exists calls. split; [reflexivity|]. split; [reflexivity|].
  exact Hlen.
Qed.

(** ** How many items a shelf holds *)

Lemma slots_length width lengths lb :
  length (slots width lengths lb) = length lengths.
Proof.
  rewrite <- (length_map slot_w), slots_widths. apply length_map.
Qed.

(** X12: a shelf constructed with a configuration that the class body of
    [GlobalSetup] yields holds between 6 and 12 items when there are fewer
    than 7 racks, and between 4 and 8 items otherwise, whatever its width. *)
Theorem shelf_item_count (entropy : source) (gs : GlobalSetup.t)
    (entropy' : source) (depth : nat) (w h : Z) (coords : Z * Z)
    (color : RGB) (s : source) (shelf : Shelf.t) (s' : source) :
  GlobalSetup.class_body entropy = Ok (gs, entropy') ->
  Shelf.init gs depth w h coords color s = Ok (shelf, s') ->
  (GlobalSetup.n_racks gs < 7
   /\ (6 <= length (Shelf.items shelf) <= 12)%nat)
  \/ (7 <= GlobalSetup.n_racks gs
      /\ (4 <= length (Shelf.items shelf) <= 8)%nat).
Proof.
  intros Hgs Hrun.
  destruct (class_body_Ok entropy) as (gs0 & Hgs0 & _ & Hregime).
  rewrite Hgs0 in Hgs. injection Hgs as -> _.
  apply Shelf_init_Ok in Hrun
    as (ivs & s1 & Hdiv & _ & _ & _ & _ & Hbuilt).
  apply Forall2_length in Hbuilt. rewrite slots_length in Hbuilt.
  unfold Shelf.item_widths in Hbuilt. rewrite length_map in Hbuilt.
  rewrite <- Hbuilt.
  assert (Hcount : forall lo hi,
             GlobalSetup.min_item_width gs = lo ->
             GlobalSetup.max_item_width gs = hi ->
             (2 * lo <= hi)%Q -> (hi < 1)%Q ->
             (inject_Z (Z.of_nat (length ivs)) * lo <= 1
              /\ 1 <= inject_Z (Z.of_nat (length ivs)) * hi)%Q).
  { intros lo hi Hlo Hhi Hwidths Hone.
    assert (Hw : (2 * GlobalSetup.min_item_width gs
                  <= GlobalSetup.max_item_width gs)%Q)
      by (rewrite Hlo, Hhi; exact Hwidths).
    destruct (divide_appends gs Hw depth [] 0%Q 1%Q s ivs s1)
      as (ivs' & Heq & _ & Hch & Hall);
      [right; rewrite Hhi; lra | exact Hdiv |].
    cbn in Heq. subst ivs'. rewrite Hlo, Hhi in Hall.
    pose proof (chained_sum _ _ _ Hch) as Hsum.
    assert (Hlens : Forall (fun x => lo <= x /\ x <= hi)%Q
                      (map interval_length ivs))
      by (apply Forall_map; exact Hall).
    destruct (Qsum_bounds _ _ _ Hlens) as [Hl Hh].
    rewrite length_map in Hl, Hh. rewrite Hsum in Hl, Hh. split; lra. }
  destruct Hregime as [(Hn & Hmax & Hmin)|(Hn & Hmax & Hmin)].
  - left. split; [exact Hn|].
    destruct (Hcount _ _ Hmin Hmax) as [Hl Hh];
      [unfold Qle; simpl; lia | reflexivity |].
    unfold Qle in Hl, Hh. cbn in Hl, Hh. lia.
  - right. split; [exact Hn|].
    destruct (Hcount _ _ Hmin Hmax) as [Hl Hh];
      [unfold Qle; simpl; lia | reflexivity |].
    unfold Qle in Hl, Hh. cbn in Hl, Hh. lia.
Qed.

(** X12 on a shelf of the configuration drawn from [half_words]. *)
Lemma shelf_item_count_witness :
  exists gs shelf s',
    GlobalSetup.class_body half_words = Ok (gs, random.rest half_words)
    /\ Shelf.init gs 14 270 40 (245, 150) Color.black half_words
       = Ok (shelf, s')
    /\ (6 <= length (Shelf.items shelf) <= 12)%nat.
Proof.
  destruct (class_body_Ok half_words) as (gs & Hgs & Hn & _).
  pose proof (class_body_valid _ _ _ Hgs) as Hvalid.
  pose proof (class_body_depth _ _ _ Hgs) as Hdepth.
  destruct (Shelf_init_total gs 14 270 40 (245, 150) Color.black half_words
              Hvalid Hdepth ltac:(vm_compute; discriminate))
    as (shelf & s' & Hrun).
  exists gs, shelf, s'. split; [exact Hgs|]. split; [exact Hrun|].
  destruct (shelf_item_count half_words gs (random.rest half_words) 14 270 40
              (245, 150) Color.black half_words shelf s' Hgs Hrun)
    as [(_ & Hcount)|(Hmany & _)]; [exact Hcount|].
  exfalso. rewrite Hn in Hmany. vm_compute in Hmany. apply Hmany. reflexivity.
Defined.

(** ** Shelf.divide without its assumption *)

Lemma Qgtb_intro a b : (b < a)%Q -> Qgtb a b = true.
Proof.
  intros Hlt. unfold Qgtb. apply negb_true_iff.
  destruct (Qle_bool a b) eqn:Hle; [|reflexivity].
  apply Qle_bool_iff in Hle. lra.
Qed.

Lemma Qgtb_refute a b : (a <= b)%Q -> Qgtb a b = false.
Proof.
  intros Hle. unfold Qgtb. apply negb_false_iff.
  apply Qle_bool_iff. exact Hle.
Qed.

Lemma uniform_zero_words a b :
  random.uniform a b zero_words
  = Ok ((a + (b - a) * (0 # 9007199254740992))%Q, zero_words).
Proof. reflexivity. Qed.

(** X13: the assumption of [Shelf.divide] is needed for it to return.
    When [max_item_width < min_item_width] and [random.random()] keeps
    returning 0, a call on an interval longer than [max_item_width] never
    returns: whatever the number of nested calls allowed, it ends in
    [RecursionError]. *)
Theorem divide_recursion_without_end (gs : GlobalSetup.t) (depth : nat)
    (store : list (Q * Q)) (b e : Q) :
  (GlobalSetup.max_item_width gs < GlobalSetup.min_item_width gs)%Q ->
  (GlobalSetup.max_item_width gs < e - b)%Q ->
  Shelf.divide gs depth store b e zero_words = Raise RecursionError.
Proof.
  intros Hwidths. revert store b e.
  induction depth as [|depth IH]; intros store b e Hspan;
    cbn [Shelf.divide]; [reflexivity|].
  rewrite (Qgtb_intro _ _ Hspan).
  rewrite (bind_step _ _ _ _ _ (uniform_zero_words _ _)).
  unfold bind at 1. rewrite IH; [reflexivity|]. lra.
Qed.

(** X13 on the configuration (0.1, 0.2) and the unit interval. *)
Lemma divide_recursion_without_end_witness :
  (GlobalSetup.max_item_width reversed_widths
   < GlobalSetup.min_item_width reversed_widths)%Q
  /\ (GlobalSetup.max_item_width reversed_widths < 1 - 0)%Q
  /\ Shelf.divide reversed_widths 1000 [] 0%Q 1%Q zero_words
     = Raise RecursionError.
Proof.
  assert (H1 : (GlobalSetup.max_item_width reversed_widths
                < GlobalSetup.min_item_width reversed_widths)%Q)
    by reflexivity.
  assert (H2 : (GlobalSetup.max_item_width reversed_widths < 1 - 0)%Q)
    by reflexivity.
  split; [exact H1|]. split; [exact H2|].
  exact (divide_recursion_without_end reversed_widths 1000 [] 0%Q 1%Q H1 H2).
Defined.

(** X14: the assumption of [Shelf.divide] is needed for the minimal width.
    When [min_item_width <= max_item_width < 2 * min_item_width], there is an
    interval longer than [max_item_width] that a call divides into two parts
    of which the second one is shorter than [min_item_width]. *)
Theorem divide_short_part_without_assumption (gs : GlobalSetup.t) :
  (0 < GlobalSetup.min_item_width gs)%Q ->
  (GlobalSetup.min_item_width gs <= GlobalSetup.max_item_width gs)%Q ->
  (GlobalSetup.max_item_width gs < 2 * GlobalSetup.min_item_width gs)%Q ->
  exists e first second,
    (GlobalSetup.max_item_width gs < e - 0)%Q
    /\ Shelf.divide gs 2 [] 0%Q e zero_words
       = Ok ([first; second], zero_words)
    /\ chained 0%Q [first; second] e
    /\ (interval_length second < GlobalSetup.min_item_width gs)%Q.
Proof.
  intros Hmin Hle Hlt.
  set (m := GlobalSetup.min_item_width gs) in *.
  set (M := GlobalSetup.max_item_width gs) in *.
  set (e := ((M + 2 * m) * (1 # 2))%Q).
  set (d := ((0 + m) + ((e - m) - (0 + m)) * (0 # 9007199254740992))%Q).
  assert (Hd : (d == m)%Q) by (subst d; ring).
  exists e, (0%Q, d), (d, e).
  assert (He : (M < e - 0)%Q) by (subst e; lra).
  split; [exact He|]. split; [|split].
  - cbn [Shelf.divide]. fold M. fold m.
    rewrite (Qgtb_intro _ _ He).
    rewrite (bind_step _ _ _ _ _ (uniform_zero_words _ _)). fold d.
    assert (Hleft : Qgtb (d - 0) M = false)
      by (apply Qgtb_refute; rewrite Hd; lra).
    assert (Hright : Qgtb (e - d) M = false)
      by (apply Qgtb_refute; rewrite Hd; subst e; lra).
    unfold bind at 1. rewrite Hleft. unfold ret at 1. rewrite Hright.
    reflexivity.
  - cbn. auto.
  - unfold interval_length. cbn [fst snd]. rewrite Hd. subst e. lra.
Qed.

(** X14 on the configuration (0.15, 0.10). *)
Lemma divide_short_part_without_assumption_witness :
  (0 < GlobalSetup.min_item_width narrow_widths)%Q
  /\ (GlobalSetup.min_item_width narrow_widths
      <= GlobalSetup.max_item_width narrow_widths)%Q
  /\ (GlobalSetup.max_item_width narrow_widths
      < 2 * GlobalSetup.min_item_width narrow_widths)%Q
  /\ exists e first second,
       Shelf.divide narrow_widths 2 [] 0%Q e zero_words
       = Ok ([first; second], zero_words)
       /\ (interval_length second
           < GlobalSetup.min_item_width narrow_widths)%Q.
Proof.
  assert (H1 : (0 < GlobalSetup.min_item_width narrow_widths)%Q)
    by reflexivity.
  assert (H2 : (GlobalSetup.min_item_width narrow_widths
                <= GlobalSetup.max_item_width narrow_widths)%Q)
    by (unfold Qle; simpl; lia).
  assert (H3 : (GlobalSetup.max_item_width narrow_widths
                < 2 * GlobalSetup.min_item_width narrow_widths)%Q)
    by reflexivity.
  split; [exact H1|]. split; [exact H2|]. split; [exact H3|].
  destruct (divide_short_part_without_assumption narrow_widths H1 H2 H3)
    as (e & first & second & _ & Hrun & _ & Hshort).
  exists e, first, second. split; [exact Hrun | exact Hshort].
Defined.

(** ** Moving a point *)



(** ** The run of the program *)

Lemma Screen_draw_head window s calls s' :
  Screen.draw window s = Ok (calls, s') ->
  exists more,
    calls
    = DrawingMethods.draw_rectangle
        (Coords.init (inject_Z (GlobalSetup.pad_left (Screen.pad window)))
           (inject_Z (GlobalSetup.pad_bottom (Screen.pad window))))
        (Screen.joint_rack_w window, Screen.rack_h window)
        Color.cellar_background_color Color.cellar_background_color
      :: more.
Proof.
  unfold Screen.draw. intros Hrun.
  apply bind_Ok in Hrun as (more & s1 & _ & Hret).
  apply ret_Ok in Hret as [-> _]. exists more. reflexivity.
Qed.

(** X16: when each call of [Shelf.divide] from [Shelf.__init__] may nest
    at least 14 calls, a run of the program, with floats in exact
    arithmetic, returns exactly when the window fits the screen found by
    [GlobalSetup()], or no screen size was found: it then never raises, and
    its first drawing call is the background of 1120 by 630 pixels at
    (-560, -315); otherwise it ends in [ValueError], whatever the generator
    delivers.  [depth] bounds the nesting of [Shelf.divide] alone, not the
    frames that the interpreter counts against its recursion limit. *)
Theorem program_returns_iff_window_fits (seeded : Z -> source) (depth : nat)
    (resolution : option (Z * Z)) (entropy : source) :
  (14 <= depth)%nat ->
  (window_fits resolution ->
   exists more,
     run seeded depth resolution entropy
     = Ok (rectangle ((inject_Z 240 - 800)%Q, (inject_Z 135 - 450)%Q)
             (1120, 630) Color.cellar_background_color
             Color.cellar_background_color
           :: more))
  /\ (~ window_fits resolution ->
      run seeded depth resolution entropy = Raise ValueError).
Proof.
  intros Hdepth. split.
  - intros Hfits.
    destruct (run_Ok seeded depth resolution entropy Hdepth Hfits)
      as (gs & window & s1 & calls & s2 & color
          & _ & _ & Hinit & Hdraw & Hrun & _).
    destruct (Screen_init_Ok _ _ _ _ _ _ Hinit) as (Hpad & Hjw & Hrh & _).
    destruct (Screen_draw_head _ _ _ _ Hdraw) as (more & Hcalls).
    exists more. rewrite Hrun, Hcalls, Hpad, Hjw, Hrh. reflexivity.
  - intros Hnot.
    destruct resolution as [[sw sh]|]; [|exfalso; apply Hnot; exact I].
    assert (Hsmall : sh < GlobalSetup.h \/ sw < GlobalSetup.w).
    { destruct (Z.lt_ge_cases sh GlobalSetup.h) as [|Hh]; [left; assumption|].
      destruct (Z.lt_ge_cases sw GlobalSetup.w) as [|Hw];
        [right; assumption|].
      exfalso. apply Hnot. split; assumption. }
    destruct (class_body_Ok entropy) as (gs & Hgs & _).
    unfold run, program. rewrite (bind_step _ _ _ _ _ Hgs). unfold main.
    assert (Hseed : random.seed seeded 677 (random.rest entropy)
                    = Ok (tt, seeded 677)) by reflexivity.
    rewrite (bind_step _ _ _ _ _ Hseed).
    unfold bind at 1.
    rewrite (Screen_window_check gs depth sw sh _ _ Hsmall). reflexivity.
Qed.

(** X16 on a screen of 1920 by 1080 and on one of 1366 by 768 pixels. *)
Lemma program_returns_iff_window_fits_witness :
  (14 <= 14)%nat /\ window_fits (Some (1920, 1080))
  /\ ~ window_fits (Some (1366, 768))
  /\ (exists calls,
         run (fun _ => half_words) 14 (Some (1920, 1080)) three_words
         = Ok calls)
  /\ run (fun _ => half_words) 14 (Some (1366, 768)) three_words
     = Raise ValueError.
Proof.
  assert (Hfits : window_fits (Some (1920, 1080)))
    by (unfold window_fits; vm_compute; split; discriminate).
  assert (Hnot : ~ window_fits (Some (1366, 768)))
    by (unfold window_fits; vm_compute; intros [H _]; apply H; reflexivity).
  split; [apply le_n|]. split; [exact Hfits|]. split; [exact Hnot|]. split.
  - destruct (proj1 (program_returns_iff_window_fits (fun _ => half_words) 14
                       (Some (1920, 1080)) three_words (le_n 14)) Hfits)
      as (more & Hrun).
    eexists. exact Hrun.
  - exact (proj2 (program_returns_iff_window_fits (fun _ => half_words) 14
                    (Some (1366, 768)) three_words (le_n 14)) Hnot).
Defined.

(** ** Where the items stand *)

Lemma Coords_moved_level lb dx :
  Coords_consistent lb ->
  (snd (Coords.coords (Coords_moved lb (dx, 0%Q))) == snd (Coords.coords lb))%Q.
Proof.
  intros Hlb. destruct (Coords_moved_coords lb dx 0 Hlb) as [_ Hy].
  cbn [fst snd] in Hy. rewrite Hy. ring.
Qed.

(** A constructor leaves an item at the level of the point it is given, with
    consistent coordinates, and with a height within the budget. *)
Lemma choice_dict_level ty lb w h s item s' :
  Coords_consistent lb ->
  Shelf.choice_dict ty lb w h s = Ok (item, s') ->
  Coords_consistent (Item_lb_coords item)
  /\ (snd (Coords.coords (Item_lb_coords item)) == snd (Coords.coords lb))%Q
  /\ Item_h item <= h.
Proof.
  intros Hlb Hrun.
  pose proof (choice_dict_fits ty lb w h s item s' Hrun) as [_ Hh].
  assert (Hcase :
    (exists j s1, Jar.init lb w h s = Ok (j, s1) /\ item = AJar j)
    \/ (exists sa s1, Salt.init lb w h s = Ok (sa, s1) /\ item = ASalt sa)
    \/ (exists b s1, Beer.init lb w h s = Ok (b, s1) /\ item = ABeer b)).
  { destruct ty; cbn [Shelf.choice_dict] in Hrun;
      apply bind_Ok in Hrun as (v & s1 & Hv & Hret);
      apply ret_Ok in Hret as [-> _]; eauto 8. }
  destruct Hcase
    as [(j & s1 & Hj & ->)|[(sa & s1 & Hsa & ->)|(b & s1 & Hb & ->)]];
    cbn [Item_lb_coords Item_h] in *.
  - apply Jar_init_Ok in Hj as (-> & _ & _).
    split; [exact Hlb|]. split; [reflexivity | exact Hh].
  - destruct (Salt_init_Ok lb w h s) as (sa' & s1' & Hrun' & _ & Hshape).
    rewrite Hrun' in Hsa. injection Hsa as <- _.
    destruct Hshape as [(_ & _ & ->)|(_ & _ & ->)].
    + split; [exact Hlb|]. split; [reflexivity | exact Hh].
    + split; [apply Coords_undo_shift_consistent|].
      split; [apply (Coords_moved_level lb _ Hlb) | exact Hh].
  - destruct (Beer_init_Ok lb w h s) as (b' & s1' & Hrun' & Hshape).
    rewrite Hrun' in Hb. injection Hb as <- _.
    destruct Hshape as [(_ & _ & _ & ->)|(_ & _ & _ & ->)].
    + split; [exact Hlb|]. split; [reflexivity | exact Hh].
    + split; [apply Coords_undo_shift_consistent|].
      split; [apply (Coords_moved_level lb _ Hlb) | exact Hh].
Qed.

Lemma slots_level width lengths :
  forall x y, Forall (fun sl => snd (fst sl) = y) (slots width lengths (x, y)).
Proof.
  induction lengths as [|l lengths IH]; intros x y; cbn [slots fst snd].
  - constructor.
  - constructor; [reflexivity | apply IH].
Qed.

(** X17: every item of a constructed shelf stands on the board of the shelf:
    its position has consistent coordinates whose second one is the shelf's
    [y] plus the thickness of the board, shifted by half the window height,
    and its height is at most the height of the shelf less the board. *)
Theorem shelf_items_stand_on_board (gs : GlobalSetup.t) (depth : nat)
    (w h : Z) (coords : Z * Z) (color : RGB) (s : source) (shelf : Shelf.t)
    (s' : source) :
  Shelf.init gs depth w h coords color s = Ok (shelf, s') ->
  Forall (fun item =>
            Coords_consistent (Item_lb_coords item)
            /\ (snd (Coords.coords (Item_lb_coords item))
                == inject_Z (snd coords + GlobalSetup.rack_thickness) - 450)%Q
            /\ Item_h item <= h - GlobalSetup.rack_thickness)
    (Shelf.items shelf).
Proof.
  intros Hrun.
  apply Shelf_init_Ok in Hrun
    as (ivs & s1 & _ & _ & _ & _ & _ & Hbuilt).
  pose proof (slots_level w (Shelf.item_widths ivs)
                (inject_Z (fst coords))
                (snd coords + GlobalSetup.rack_thickness)) as Hlevel.
  revert Hlevel Hbuilt.
  generalize (slots w (Shelf.item_widths ivs)
                (inject_Z (fst coords),
                 snd coords + GlobalSetup.rack_thickness)).
  generalize (Shelf.items shelf). intros items sls Hlevel Hbuilt.
  induction Hbuilt as [|sl item sls items (ty & s2 & s3 & Hb) _ IH].
  - constructor.
  - inversion Hlevel as [|? ? Hy Hlevel']; subst.
    constructor; [|apply IH; exact Hlevel'].
    apply choice_dict_level in Hb as (Hc & Hlv & Hh);
      [|apply Coords_init_consistent].
    split; [exact Hc|]. split; [|exact Hh].
    rewrite Hlv. unfold slot_coords, Coords.init. cbn [Coords.coords snd].
    rewrite Hy. reflexivity.
Qed.

(** X17 on a shelf built from the generator [half_words]. *)
Lemma shelf_items_stand_on_board_witness :
  exists shelf s',
    Shelf.init many_racks 14 130 45 (245, 150) Color.black half_words
    = Ok (shelf, s')
    /\ Forall (fun item =>
                 (snd (Coords.coords (Item_lb_coords item))
                  == inject_Z 155 - 450)%Q
                 /\ Item_h item <= 40)
         (Shelf.items shelf).
Proof.
  assert (Hvalid : valid_item_widths many_racks)
    by (split; [unfold Qlt | unfold Qle]; simpl; lia).
  destruct (Shelf_init_total many_racks 14 130 45 (245, 150) Color.black
              half_words Hvalid ltac:(vm_compute; lia)
              ltac:(vm_compute; discriminate)) as (shelf & s' & Hrun).
  exists shelf, s'. split; [exact Hrun|].
  pose proof (shelf_items_stand_on_board many_racks 14 130 45 (245, 150)
                Color.black half_words shelf s' Hrun) as Hall.
  eapply Forall_impl; [|exact Hall]. cbn beta.
  intros item (_ & Hy & Hh). split; [exact Hy | exact Hh].
Defined.

(** ** The class body of GlobalSetup *)

(** X18: whatever the generator delivers, the class body of [GlobalSetup]
    returns after one draw, with a number of racks between 4 and 11; the
    items are between 0.08 and 0.18 of a shelf wide exactly when there are
    fewer than 7 racks, and between 0.12 and 0.27 otherwise. *)
Theorem class_body_regimes (s : source) :
  exists gs,
    GlobalSetup.class_body s = Ok (gs, random.rest s)
    /\ 4 <= GlobalSetup.n_racks gs <= 11
    /\ (GlobalSetup.n_racks gs < 7 <->
        GlobalSetup.max_item_width gs = 18 # 100
        /\ GlobalSetup.min_item_width gs = 8 # 100)
    /\ (7 <= GlobalSetup.n_racks gs <->
        GlobalSetup.max_item_width gs = 27 # 100
        /\ GlobalSetup.min_item_width gs = 12 # 100).
Proof.
  destruct (class_body_Ok s) as (gs & Hrun & Hn & Hregime).
  exists gs. split; [exact Hrun|].
  pose proof (Z.mod_pos_bound (Z.of_N (s 0%nat)) 8 ltac:(lia)) as Hmod.
  split; [lia|].
  destruct Hregime as [(Hlt & Hmax & Hmin)|(Hge & Hmax & Hmin)].
  - split; split; try (intros; auto; fail).
    + intros; lia.
    + rewrite Hmax. intros [Habs _]. discriminate Habs.
  - split; split; try (intros; auto; fail).
    + intros; lia.
    + rewrite Hmax. intros [Habs _]. discriminate Habs.
Qed.

(** * Properties in binary64 *)

(** ** Shelf.divide *)











(** ** The slots of Shelf.__init__ *)








